(** * OCR request pipeline of [api/ocr.py]: a shallow embedding

    The development follows the source file top to bottom:
    - Python strings and the string methods the normalizer uses
      ([split], [join], [strip], [replace], the look-around [re.sub]);
    - Python numbers (ints and binary64 floats) as the code mixes them;
    - [OCRHandler] ([_clean_text], [_preprocess_image], [_process_image],
      [do_POST]) and the module-level [handler];
    - the properties of the pipeline. *)

From Stdlib Require Import ZArith NArith List Bool Lia Ascii String.
From Stdlib Require Import Floats DecimalString.
From Stdlib Require QArith Permutation.
Import ListNotations.

Set Warnings "-inexact-float,-notation-for-abbreviation".

(** ** Python strings *)

Module PyStr.

(** A Python [str] is a sequence of Unicode code points. *)
Notation char := N (only parsing).
Notation str := (list N) (only parsing).

(** String literals of the source, read as code points. *)
Definition py (s : string) : str := map N_of_ascii (list_ascii_of_string s).

Definition LF : char := 10%N.
Definition SPACE : char := 32%N.

(** [str.isspace] on one character (CPython's [_PyUnicode_IsWhitespace]). *)
Definition isspace (c : char) : bool :=
  ((9 <=? c) && (c <=? 13) || (28 <=? c) && (c <=? 32)
   || (c =? 133) || (c =? 160) || (c =? 5760)
   || (8192 <=? c) && (c <=? 8202)
   || (c =? 8232) || (c =? 8233) || (c =? 8239) || (c =? 8287)
   || (c =? 12288))%N.

(** The character class [[a-zA-Z]] of the regular expressions. *)
Definition is_ascii_letter (c : char) : bool :=
  ((65 <=? c) && (c <=? 90) || (97 <=? c) && (c <=? 122))%N.

Definition letter_opt (o : option char) : bool :=
  match o with Some c => is_ascii_letter c | None => false end.

Definition is_nil {A} (l : list A) : bool :=
  match l with [] => true | _ => false end.

(** [str.split()] without arguments: the maximal runs of non-whitespace
    characters, in order.  [cur] holds the current run, reversed. *)
Fixpoint split_go (cur : str) (s : str) : list str :=
  match s with
  | [] => if is_nil cur then [] else [rev cur]
  | c :: t =>
      if isspace c
      then (if is_nil cur then split_go [] t else rev cur :: split_go [] t)
      else split_go (c :: cur) t
  end.

Definition split (s : str) : list str := split_go [] s.

(** [sep.join(parts)]. *)
Fixpoint join (sep : str) (parts : list str) : str :=
  match parts with
  | [] => []
  | [w] => w
  | w :: rest => w ++ sep ++ join sep rest
  end.

(** [str.strip()] without arguments, as [lstrip] then [rstrip]. *)
Fixpoint lstrip (s : str) : str :=
  match s with
  | [] => []
  | c :: t => if isspace c then lstrip t else s
  end.

Fixpoint rstrip (s : str) : str :=
  match s with
  | [] => []
  | c :: t =>
      match rstrip t with
      | [] => if isspace c then [] else [c]
      | r => c :: r
      end
  end.

Definition strip (s : str) : str := rstrip (lstrip s).

(** Is [p] a prefix of [s]? *)
Fixpoint prefixb (p s : str) : bool :=
  match p, s with
  | [], _ => true
  | _ :: _, [] => false
  | a :: p', b :: s' => (a =? b)%N && prefixb p' s'
  end.

(** [s.replace(old, new)] for a non-empty [old]: leftmost non-overlapping
    occurrences.  [skip] counts the characters of a matched occurrence that
    are still to be dropped. *)
Fixpoint replace_go (old new : str) (skip : nat) (s : str) : str :=
  match s with
  | [] => []
  | c :: t =>
      match skip with
      | S k => replace_go old new k t
      | O =>
          if prefixb old s
          then new ++ replace_go old new (List.length old - 1) t
          else c :: replace_go old new 0 t
      end
  end.

Definition replace (old new s : str) : str := replace_go old new 0 s.

(** A character-wise rewriting in which every output character is a function
    of the input character and of its two neighbours in the input. *)
Fixpoint ctx_map (f : option char -> char -> option char -> char)
    (prev : option char) (s : str) : str :=
  match s with
  | [] => []
  | c :: t => f prev c (hd_error t) :: ctx_map f (Some c) t
  end.

(** One match decision of the pattern [(?<=[a-zA-Z])old(?=[a-zA-Z])]. *)
Definition between_letters (old new : char)
    (prev : option char) (c : char) (next : option char) : char :=
  if (c =? old)%N && letter_opt prev && letter_opt next then new else c.

(** [re.sub("(?<=[a-zA-Z])" + old + "(?=[a-zA-Z])", new, text)] for a
    one-character literal [old]: the look-behind and the look-ahead inspect the
    subject string, and every match is one character long. *)
Definition re_sub_between (old new : char) (text : str) : str :=
  ctx_map (between_letters old new) None text.

End PyStr.

Import PyStr.

(** ** Exceptions *)

(** A Python call either returns or raises; an exception is identified with
    its message, [str(e)], the only part of it the handlers read. *)
Inductive result (A : Type) : Type :=
| Ok (a : A)
| Raise (msg : string).

Arguments Ok {A} a.
Arguments Raise {A} msg.

Definition bind {A B} (m : result A) (k : A -> result B) : result B :=
  match m with
  | Ok a => k a
  | Raise msg => Raise msg
  end.

Notation "x <- m ;; k" := (bind m (fun x => k))
  (at level 61, m at next level, right associativity).

(** ** Python numbers *)

Module PyNum.

(** The numbers of the pipeline are ints ([0], [100], [len(...)]) and
    binary64 floats (the engine's confidences and everything derived from
    them). *)
Inductive num : Type :=
| PyInt (z : Z)
| PyFloat (x : float).

(** Conversion of an int operand in mixed arithmetic, for the magnitudes
    below [2^63] that lengths, pixel counts and the constants reach. *)
Definition float_of_Z (z : Z) : float :=
  if (z <? 0)%Z
  then PrimFloat.opp (PrimFloat.of_uint63 (Uint63.of_Z (- z)))
  else PrimFloat.of_uint63 (Uint63.of_Z z).

Definition to_float (n : num) : float :=
  match n with
  | PyInt z => float_of_Z z
  | PyFloat x => x
  end.

Definition add (a b : num) : num :=
  match a, b with
  | PyInt x, PyInt y => PyInt (x + y)
  | _, _ => PyFloat (to_float a + to_float b)
  end.

Definition mul (a b : num) : num :=
  match a, b with
  | PyInt x, PyInt y => PyInt (x * y)
  | _, _ => PyFloat (to_float a * to_float b)
  end.

Definition is_zero (n : num) : bool :=
  match n with
  | PyInt z => (z =? 0)%Z
  | PyFloat x => PrimFloat.eqb x 0
  end.

(** [a / b]: true division always yields a float, and raises on a zero
    divisor. *)
Definition truediv (a b : num) : result num :=
  if is_zero b then Raise "division by zero"
  else Ok (PyFloat (to_float a / to_float b)).

(** [sum(xs)]: left to right from the int [0].  (CPython 3.12 and later
    carry a compensation term over float items; on the lists evaluated in
    this file both sums round to the same float.) *)
Definition py_sum (xs : list num) : num := fold_left add xs (PyInt 0).

Definition len {A} (l : list A) : num := PyInt (Z.of_nat (List.length l)).

(** [int(x)] of a float: truncation toward zero; infinities and NaN raise. *)
Definition py_int (x : float) : result Z :=
  match Prim2SF x with
  | S754_zero _ => Ok 0%Z
  | S754_finite s m e =>
      let v := if (0 <=? e)%Z then (Zpos m * 2 ^ e)%Z
               else (Zpos m / 2 ^ (- e))%Z in
      Ok (if s then (- v)%Z else v)
  | S754_infinity _ => Raise "cannot convert float infinity to integer"
  | S754_nan => Raise "cannot convert float NaN to integer"
  end.

End PyNum.

Import PyNum.

(** ** The collaborators: PIL, numpy and PaddleOCR *)

Definition bytes := list N.

(** One entry of [ocr_result[0]]: a line is read only when it is truthy and
    has at least two elements, and then as [line[1] = (text, confidence)]. *)
Inductive ocr_line : Type :=
| Skipped
| Line (text : str) (confidence : float).

(** [ocr_result]: a list of per-image results of which the first is
    consulted; an empty list stands for every falsy value. *)
Definition ocr_output := list (list ocr_line).

(** The library calls of the source, each of which may raise. *)
Class Libs : Type := {
  Image : Type;
  Array : Type;
  Engine : Type;
  Image_open : bytes -> result Image;
  mode : Image -> string;
  size : Image -> Z * Z;
  convert : Image -> string -> result Image;
  resize : Image -> Z * Z -> result Image;
  Contrast_enhance : Image -> float -> result Image;
  Sharpness_enhance : Image -> float -> result Image;
  np_array : Image -> result Array;
  PaddleOCR : result Engine;
  ocr_ocr : Engine -> Array -> result ocr_output;
  (* [list(set(names))], as [cgi.FieldStorage.keys] computes it: the names
     without repeats, in the order of the set's hash table *)
  list_set : list (option string) -> list (option string)
}.

(** What the code relies on from [set] and from PIL: a set holds each name
    once; a resize returns an image of the size asked, or raises, which it
    does when a side is not positive; an enhancement keeps the size. *)
Class CgiSpec (L : Libs) : Prop := {
  list_set_NoDup : forall names, NoDup (list_set names);
  list_set_In : forall names k, In k (list_set names) <-> In k names
}.

Class PilSpec (L : Libs) : Prop := {
  resize_size :
    forall img sz img', resize img sz = Ok img' -> size img' = sz;
  resize_positive :
    forall img w h,
      (w <= 0 \/ h <= 0)%Z -> exists msg, resize img (w, h) = Raise msg;
  contrast_size :
    forall img factor img',
      Contrast_enhance img factor = Ok img' -> size img' = size img;
  sharpness_size :
    forall img factor img',
      Sharpness_enhance img factor = Ok img' -> size img' = size img
}.

(** ** Result records *)

Record ImageResult : Type := {
  filename : string;
  text : str;
  confidence : num;
  error : option string;
  character_count : nat;
  lines_detected : nat
}.

Record BatchResult : Type := {
  success : bool;
  images : list ImageResult;
  combined_text : str;
  total_confidence : num;
  image_count : nat
}.

(** The record both [except] clauses build. *)
Definition error_record (name msg : string) : ImageResult :=
  {| filename := name; text := []; confidence := PyInt 0; error := Some msg;
     character_count := 0; lines_detected := 0 |}.

(** ** [OCRHandler._clean_text] *)

Definition replacements : list (char * char) :=
  [(48%N, 79%N); (49%N, 108%N)].   (* ("0", "O"), ("1", "l") *)

Definition apply_replacements (text : str) : str :=
  fold_left (fun t r => re_sub_between (fst r) (snd r) t) replacements text.

(** The two chained [text.replace] calls: a hyphen followed by a line feed
    is deleted, then every remaining line feed becomes a space. *)
Definition repair_line_breaks (text : str) : str :=
  replace [LF] [SPACE] (replace [45%N; LF] [] text).

Definition _clean_text (text : str) : str :=
  if is_nil text then []
  else
    let text := join [SPACE] (split text) in
    let text := apply_replacements text in
    let text := repair_line_breaks text in
    let text := join [SPACE] (split text) in
    strip text.

(** The same function with the line-break repair deleted. *)
Definition _clean_text_without_repair (text : str) : str :=
  if is_nil text then []
  else
    let text := join [SPACE] (split text) in
    let text := apply_replacements text in
    let text := join [SPACE] (split text) in
    strip text.

(** ** Preprocessing *)

(** The body of a [try] block that keeps reassigning the local [image]: a
    statement maps the current value of the variable to its new value and
    either completes or raises. *)
Definition stmt (I : Type) := I -> I * result unit.

Definition assign {I} (e : I -> result I) : stmt I :=
  fun image =>
    match e image with
    | Ok image' => (image', Ok tt)
    | Raise msg => (image, Raise msg)
    end.

Definition seq_stmt {I} (s1 s2 : stmt I) : stmt I :=
  fun image =>
    match s1 image with
    | (image', Ok _) => s2 image'
    | (image', Raise msg) => (image', Raise msg)
    end.

Infix ">>" := seq_stmt (at level 65, right associativity).

Definition max_size : Z := 2048.

(** [tuple(int(dim * ratio) for dim in image.size)] with
    [ratio = max_size / max(image.size)]. *)
Definition new_size (sz : Z * Z) : result (Z * Z) :=
  ratio <- truediv (PyInt max_size) (PyInt (Z.max (fst sz) (snd sz))) ;;
  w <- py_int (to_float (mul (PyInt (fst sz)) ratio)) ;;
  h <- py_int (to_float (mul (PyInt (snd sz)) ratio)) ;;
  Ok (w, h).

Section Pipeline.

Context {L : Libs}.

Definition convert_step (image : Image) : result Image :=
  if negb (String.eqb (mode image) "RGB") then convert image "RGB"
  else Ok image.

Definition resize_step (image : Image) : result Image :=
  if (max_size <? Z.max (fst (size image)) (snd (size image)))%Z
  then sz <- new_size (size image) ;; resize image sz
  else Ok image.

Definition contrast_step (image : Image) : result Image :=
  Contrast_enhance image 1.2%float.

Definition sharpness_step (image : Image) : result Image :=
  Sharpness_enhance image 1.1%float.

(** [OCRHandler._preprocess_image]: both the normal exit and the [except]
    clause return the current value of [image]. *)
Definition _preprocess_image (image : Image) : Image :=
  fst ((assign convert_step >> assign resize_step >>
        assign contrast_step >> assign sharpness_step) image).

(** The in-line preprocessing of [handler]: the same first three statements,
    not wrapped in a [try] of their own. *)
Definition handler_preprocess (image : Image) : result Image :=
  match (assign convert_step >> assign resize_step >>
         assign contrast_step) image with
  | (image', Ok _) => Ok image'
  | (_, Raise msg) => Raise msg
  end.

(** ** Parsing the engine output *)

Fixpoint parse_lines (lines : list ocr_line) : list str * list num :=
  match lines with
  | [] => ([], [])
  | line :: rest =>
      let (text_parts, confidences) := parse_lines rest in
      match line with
      | Skipped => (text_parts, confidences)
      | Line text confidence =>
          if negb (is_nil text) && negb (is_nil (strip text))
          then (strip text :: text_parts, PyFloat confidence :: confidences)
          else (text_parts, confidences)
      end
  end.

Definition parse_result (ocr_result : ocr_output) : list str * list num :=
  match ocr_result with
  | first :: _ => parse_lines first
  | [] => ([], [])
  end.

(** [sum(confidences) / len(confidences) if confidences else 0] *)
Definition average (confidences : list num) : result num :=
  if is_nil confidences then Ok (PyInt 0)
  else truediv (py_sum confidences) (len confidences).

(** ** [OCRHandler._process_image] *)

Definition process_image_try (ocr : Engine) (image_data : bytes)
    (name : string) : result ImageResult :=
  image <- Image_open image_data ;;
  let processed_image := _preprocess_image image in
  img_array <- np_array processed_image ;;
  ocr_result <- ocr_ocr ocr img_array ;;
  let (text_parts, confidences) := parse_result ocr_result in
  let combined_text := _clean_text (join [SPACE] text_parts) in
  average_confidence <- average confidences ;;
  Ok {| filename := name;
        text := combined_text;
        confidence := mul average_confidence (PyInt 100);
        error := None;
        character_count := List.length combined_text;
        lines_detected := List.length text_parts |}.

Definition _process_image (ocr : Engine) (image_data : bytes)
    (name : string) (index : nat) : ImageResult :=
  match process_image_try ocr image_data name with
  | Ok r => r
  | Raise msg => error_record name msg
  end.

End Pipeline.

(** ** Responses *)

(** The JSON bodies, before [json.dumps]. *)
Inductive payload : Type :=
| EmptyBody
| ErrorBody (message : string)
| BatchBody (b : BatchResult).

(** What a [BaseHTTPRequestHandler] puts on the wire, in order. *)
Inductive event : Type :=
| send_response (status : Z)
| send_header (key value : string)
| end_headers
| wfile_write (p : payload).

(** An HTTP client reads the status of the first status line it receives. *)
Fixpoint client_status (trace : list event) : option Z :=
  match trace with
  | [] => None
  | send_response status :: _ => Some status
  | _ :: rest => client_status rest
  end.

(** The headers sent, in order. *)
Fixpoint sent_headers (trace : list event) : list (string * string) :=
  match trace with
  | [] => []
  | send_header key value :: rest => (key, value) :: sent_headers rest
  | _ :: rest => sent_headers rest
  end.

(** Every body written to [wfile]. *)
Fixpoint written (trace : list event) : list payload :=
  match trace with
  | [] => []
  | wfile_write p :: rest => p :: written rest
  | _ :: rest => written rest
  end.

(** [any(sub in s)]: substring test of the [in] operator. *)
Fixpoint contains (sub s : string) : bool :=
  String.prefix sub s ||
  match s with
  | EmptyString => false
  | String _ rest => contains sub rest
  end.

Definition string_is_empty (s : string) : bool :=
  match s with EmptyString => true | _ => false end.

(** ["\n\n".join([r["text"] for r in results if r["text"].strip()])] *)
Definition combine (results : list ImageResult) : str :=
  join [LF; LF]
    (map text (filter (fun r => negb (is_nil (strip (text r)))) results)).

(** ** [OCRHandler.do_POST] *)

(** One part of the form ([cgi.FieldStorage.list]): its [name] is [None]
    when the part declares none, and several parts may share a name. *)
Record field : Type := {
  field_name : option string;
  field_filename : string;     (* empty when the part carries no file name *)
  field_data : bytes
}.

(** [form] is the list of parts of [cgi.FieldStorage], in the order of the
    body, or the exception that building it or asking its keys raises. *)
Record post_request : Type := {
  content_type : option string;
  form : result (list field)
}.

Definition key_eq_dec (a b : option string) : {a = b} + {a <> b}.
Proof. decide equality. apply string_dec. Defined.

(** [form[key]]: the parts named [key]; the code receives the part itself
    when there is one, and the list when there are several. *)
Definition getitem (parts : list field) (key : option string) : list field :=
  filter (fun f => if key_eq_dec (field_name f) key then true else false)
         parts.

(** [field_name.startswith('image')] and [field.filename] is truthy. *)
Definition is_image_field (f : field) : bool :=
  match field_name f with
  | Some name => String.prefix "image" name
  | None => false
  end
  && negb (string_is_empty (field_filename f)).

Definition _send_error (status : Z) (message : string) : list event :=
  [ send_response status;
    send_header "Access-Control-Allow-Origin" "*";
    send_header "Content-Type" "application/json";
    end_headers;
    wfile_write (ErrorBody message) ].

Section Handlers.

Context {L : Libs}.

(** The loop [for field_name in form.keys()].  A key that is [None] has
    no [startswith]; a key shared by several parts makes [form[field_name]]
    a list, which has no [filename].  Either exception leaves the loop, and
    the records built so far are lost. *)
Fixpoint process_keys (ocr : Engine) (parts : list field)
    (keys : list (option string)) (image_count : nat)
    : result (list ImageResult) :=
  match keys with
  | [] => Ok []
  | None :: _ =>
      Raise "'NoneType' object has no attribute 'startswith'"
  | Some field_name :: rest =>
      if String.prefix "image" field_name
      then
        match getitem parts (Some field_name) with
        | [] => Raise ("'" ++ field_name ++ "'")%string
        | [f] =>
            if negb (string_is_empty (field_filename f))
            then
              results <- process_keys ocr parts rest (S image_count) ;;
              Ok (_process_image ocr (field_data f) (field_filename f)
                    (S image_count) :: results)
            else process_keys ocr parts rest image_count
        | _ :: _ :: _ =>
            Raise "'list' object has no attribute 'filename'"
        end
      else process_keys ocr parts rest image_count
  end.

(** The [try] block of [do_POST]: the events emitted so far, and whether the
    block completed or raised. *)
Definition do_POST_try (ocr : Engine) (request : post_request)
    : list event * result unit :=
  let started :=
    [ send_response 200;
      send_header "Access-Control-Allow-Origin" "*";
      send_header "Content-Type" "application/json";
      end_headers ] in
  match content_type request with
  | None =>
      (started ++ _send_error 400 "Content-Type must be multipart/form-data",
       Ok tt)
  | Some ct =>
      if negb (contains "multipart/form-data" ct)
      then (started ++
            _send_error 400 "Content-Type must be multipart/form-data", Ok tt)
      else
        match form request with
        | Raise msg => (started, Raise msg)
        | Ok parts =>
            match process_keys ocr parts
                    (list_set (map field_name parts)) 0 with
            | Raise msg => (started, Raise msg)
            | Ok results =>
                if is_nil results
                then (started ++
                      _send_error 400 "No valid images found in request",
                      Ok tt)
                else
                  match
                    truediv (py_sum (map confidence results)) (len results)
                  with
                  | Raise msg => (started, Raise msg)
                  | Ok average_confidence =>
                      (started ++
                       [ wfile_write (BatchBody
                           {| success := true;
                              images := results;
                              combined_text := combine results;
                              total_confidence := average_confidence;
                              image_count := List.length results |}) ],
                       Ok tt)
                  end
            end
        end
  end.

(** [OCRHandler.do_OPTIONS]: the CORS preflight. *)
Definition do_OPTIONS : list event :=
  [ send_response 200;
    send_header "Access-Control-Allow-Origin" "*";
    send_header "Access-Control-Allow-Methods" "POST, OPTIONS";
    send_header "Access-Control-Allow-Headers" "Content-Type";
    end_headers ].

Definition do_POST (ocr : Engine) (request : post_request) : list event :=
  match do_POST_try ocr request with
  | (trace, Ok _) => trace
  | (trace, Raise msg) =>
      trace ++ _send_error 500 ("OCR processing failed: " ++ msg)%string
  end.

(** ** The serverless [handler] *)

Record upload : Type := {
  upload_filename : string;    (* empty when missing *)
  upload_stream : bytes
}.

Record vercel_request : Type := {
  method : string;
  files : list upload          (* [request.files.getlist('images')] *)
}.

Record vercel_response : Type := {
  statusCode : Z;
  headers : list (string * string);
  body : payload
}.

(** [file.filename or f"image_{i+1}"] *)
Definition name_or_placeholder (file : upload) (i : nat) : string :=
  if string_is_empty (upload_filename file)
  then ("image_" ++ NilEmpty.string_of_uint (Nat.to_uint (i + 1)))%string
  else upload_filename file.

Definition handler_image_try (ocr : Engine) (i : nat) (file : upload)
    : result ImageResult :=
  image <- Image_open (upload_stream file) ;;
  image <- handler_preprocess image ;;
  img_array <- np_array image ;;
  ocr_result <- ocr_ocr ocr img_array ;;
  let (text_parts, confidences) := parse_result ocr_result in
  let combined_text := strip (join [SPACE] text_parts) in
  average_confidence <- average confidences ;;
  Ok {| filename := name_or_placeholder file i;
        text := combined_text;
        confidence := mul average_confidence (PyInt 100);
        error := None;
        character_count := List.length combined_text;
        lines_detected := List.length text_parts |}.

Definition handler_image (ocr : Engine) (i : nat) (file : upload)
    : ImageResult :=
  match handler_image_try ocr i file with
  | Ok r => r
  | Raise msg => error_record (name_or_placeholder file i) msg
  end.

(** [for i, file in enumerate(files)] *)
Fixpoint handler_loop (ocr : Engine) (i : nat) (fs : list upload)
    : list ImageResult :=
  match fs with
  | [] => []
  | file :: rest => handler_image ocr i file :: handler_loop ocr (S i) rest
  end.

Definition cors : list (string * string) :=
  [("Access-Control-Allow-Origin", "*")]%string.

Definition handler_try (request : vercel_request) : result vercel_response :=
  if String.eqb (method request) "OPTIONS"
  then Ok {| statusCode := 200;
             headers := [("Access-Control-Allow-Origin", "*");
                         ("Access-Control-Allow-Methods", "POST, OPTIONS");
                         ("Access-Control-Allow-Headers", "Content-Type")]%string;
             body := EmptyBody |}
  else if negb (String.eqb (method request) "POST")
  then Ok {| statusCode := 405; headers := cors;
             body := ErrorBody "Method not allowed" |}
  else
    ocr <- PaddleOCR ;;
    if is_nil (files request)
    then Ok {| statusCode := 400; headers := cors;
               body := ErrorBody "No images provided" |}
    else
      let results := handler_loop ocr 0 (files request) in
      average_confidence <-
        (if is_nil results then Ok (PyInt 0)
         else truediv (py_sum (map confidence results)) (len results)) ;;
      Ok {| statusCode := 200;
            headers := [("Access-Control-Allow-Origin", "*");
                        ("Content-Type", "application/json")]%string;
            body := BatchBody
              {| success := true;
                 images := results;
                 combined_text := combine results;
                 total_confidence := average_confidence;
                 image_count := List.length results |} |}.

Definition handler (request : vercel_request) : vercel_response :=
  match handler_try request with
  | Ok response => response
  | Raise msg => {| statusCode := 500; headers := cors;
                    body := ErrorBody msg |}
  end.

End Handlers.

(** * Notions used in the statements *)

(** A string is in whitespace normal form when its only whitespace is single
    spaces between two non-whitespace characters.  [prev_space] tells whether
    the position before [s] counts as a space (true at the start). *)
Fixpoint norm_from (prev_space : bool) (s : str) : bool :=
  match s with
  | [] => negb prev_space
  | c :: t =>
      if isspace c then (c =? SPACE)%N && negb prev_space && norm_from true t
      else norm_from false t
  end.

Definition normalized (s : str) : bool := is_nil s || norm_from true s.

(** A word of [split]: non-empty and free of whitespace. *)
Definition word (w : str) : Prop :=
  w <> [] /\ Forall (fun c => isspace c = false) w.

(** The output character at an optional position [p]. *)
Definition lift (f : option char -> char -> option char -> char)
    (pp p n : option char) : option char :=
  match p with
  | Some c => Some (f pp c n)
  | None => None
  end.

(** The rule of the specification: a ['0'] or a ['1'] strictly between two
    letters of [[a-zA-Z]] becomes ['O'] or ['l']; every other character is
    kept. *)
Definition substitute (prev : option char) (c : char) (next : option char)
    : char :=
  if letter_opt prev && letter_opt next
  then (if (c =? 48)%N then 79%N else if (c =? 49)%N then 108%N else c)
  else c.

(** The whitespace collapse, [" ".join(text.split())]. *)
Definition collapse (s : str) : str := join [SPACE] (split s).

(** The neighbours of position [i] in [t]. *)
Definition prev_char (t : str) (i : nat) : option char :=
  match i with
  | O => None
  | S j => nth_error t j
  end.

Definition next_char (t : str) (i : nat) : option char := nth_error t (S i).

(** What [strip] returns when it returns anything: a non-empty string with
    no whitespace at either end. *)
Definition trimmed (w : str) : Prop :=
  w <> [] /\ lstrip w = w /\ rstrip w = w.

(** The mean of a list of confidences in Python arithmetic, as a percentage
    when scaled: the binary64 sum from the left, divided by the count. *)
Definition arithmetic_mean (xs : list num) : num :=
  PyFloat (to_float (py_sum xs) / to_float (len xs)).

(** The per-image confidence of the specification: the mean times 100, and
    the int 0 for no lines. *)
Definition mean_percent (confidences : list num) : num :=
  if is_nil confidences then PyInt 0
  else PyFloat (to_float (arithmetic_mean confidences) * 100).

(** What the specification asks of one dimension: the float product of the
    dimension and [2048 / longer], truncated. *)
Definition scaled (dim longer : Z) : result Z :=
  py_int (float_of_Z dim * (float_of_Z 2048 / float_of_Z longer)).

(** Scaling [d] against a longer side of 4096 gives [d / 2]. *)
Definition halves (d : nat) : bool :=
  match scaled (Z.of_nat d) 4096 with
  | Ok v => (v =? Z.of_nat d / 2)%Z
  | Raise _ => false
  end.

(** Scaling a longer side [m] against itself gives 2048, or 2047. *)
Definition caps (m : Z) : bool :=
  match scaled m m with
  | Ok v => (v =? 2048)%Z || (v =? 2047)%Z
  | Raise _ => false
  end.

(** [caps] on the [count] sides from [m] on. *)
Fixpoint caps_from (m : Z) (count : nat) : bool :=
  match count with
  | O => true
  | S k => caps m && caps_from (m + 1) k
  end.

(** The float mean of the specification, away from Python's mixing of ints
    and floats: the binary64 sum from the left, starting at 0.0, divided by
    the count. *)
Definition binary64_mean (xs : list float) : float :=
  fold_left PrimFloat.add xs 0%float
  / float_of_Z (Z.of_nat (List.length xs)).

(** The only int among the confidences is 0. *)
Definition zero_or_float (n : num) : Prop :=
  match n with
  | PyInt z => z = 0%Z
  | PyFloat _ => True
  end.

(** The rational number a finite float stands for. *)
Definition exact (x : float) : QArith_base.Q :=
  match Prim2SF x with
  | S754_finite s m e =>
      let q := if (0 <=? e)%Z
               then QArith_base.inject_Z (Zpos m * 2 ^ e)
               else QArith_base.Qmake (Zpos m) (Z.to_pos (2 ^ (- e))) in
      if s then QArith_base.Qopp q else q
  | _ => QArith_base.inject_Z 0
  end.

Definition exact_num (n : num) : QArith_base.Q :=
  match n with
  | PyInt z => QArith_base.inject_Z z
  | PyFloat x => exact x
  end.

(** The arithmetic mean in exact rational arithmetic. *)
Definition exact_mean (xs : list num) : QArith_base.Q :=
  QArith_base.Qdiv
    (fold_right QArith_base.Qplus (QArith_base.inject_Z 0)
       (map exact_num xs))
    (QArith_base.inject_Z (Z.of_nat (List.length xs))).

(** Does the loop of [do_POST] raise at this key? *)
Definition key_raises (parts : list field) (key : option string) : bool :=
  match key with
  | None => true
  | Some name =>
      String.prefix "image" name
      && negb (Nat.eqb (List.length (getitem parts key)) 1)
  end.

(** The part the loop of [do_POST] processes at a key, if any. *)
Definition key_fields (parts : list field) (key : option string)
    : list field :=
  match key with
  | None => []
  | Some name =>
      if String.prefix "image" name
      then match getitem parts key with
           | [f] => if negb (string_is_empty (field_filename f))
                    then [f] else []
           | _ => []
           end
      else []
  end.

(** What [do_POST] sends before it looks at the request. *)
Definition started : list event :=
  [ send_response 200;
    send_header "Access-Control-Allow-Origin" "*";
    send_header "Content-Type" "application/json";
    end_headers ].

Section Failures.

Context {L : Libs}.



End Failures.

(** * A sample set of collaborators *)

(** Concrete stand-ins for PIL, numpy and PaddleOCR, used to run the pipeline
    on explicit inputs.  An image records its mode, its size, the lines the
    engine will read on it, the operations that raise on it, and the
    operations applied so far. *)
Module Sample.

Record image : Type := {
  s_mode : string;
  s_size : Z * Z;
  s_lines : list ocr_line;
  s_raising : list string;
  s_applied : list string
}.

Definition raises (op : string) (img : image) : bool :=
  existsb (String.eqb op) (s_raising img).

Definition apply (op : string) (img : image) (m : string) (sz : Z * Z)
    : result image :=
  if (fst sz <=? 0)%Z || (snd sz <=? 0)%Z
  then Raise "height and width must be > 0"
  else if raises op img then Raise (op ++ " failed")%string
  else Ok {| s_mode := m; s_size := sz; s_lines := s_lines img;
             s_raising := s_raising img;
             s_applied := s_applied img ++ [op] |}.

Definition rgb (sz : Z * Z) (lines : list ocr_line) (raising : list string)
    : image :=
  {| s_mode := "RGB"; s_size := sz; s_lines := lines;
     s_raising := raising; s_applied := [] |}.

(** A greyscale picture whose conversion to RGB raises. *)
Definition grey : image :=
  {| s_mode := "L"; s_size := (640, 480)%Z;
     s_lines := [Line (py "grey") 0.5%float];
     s_raising := ["convert"%string]; s_applied := [] |}.

(** An oversized picture on which sharpening raises. *)
Definition big : image :=
  rgb (4096, 3000)%Z [Line (py "big") 0.5%float] ["sharpness"%string].

(** A picture one pixel high. *)
Definition sliver : image :=
  rgb (4096, 1)%Z [Line (py "edge") 0.5%float] [].

(** [big] once capped to 2048 pixels, with the operations applied to it. *)
Definition after (img : image) (ops : list string) : image :=
  {| s_mode := s_mode img; s_size := (2048, 1500)%Z; s_lines := s_lines img;
     s_raising := s_raising img; s_applied := ops |}.

(** The decoder: the first byte selects a picture; no byte, no picture. *)
Definition decode (data : bytes) : result image :=
  match data with
  | [] => Raise "cannot identify image file"
  | 1%N :: _ => Ok (rgb (640, 480)%Z [Line (py "a0b") 0.9%float] [])
  | 2%N :: _ => Ok (rgb (640, 480)%Z
                      [Line (py "first") 0.9%float; Skipped;
                       Line (py "  ") 0.1%float;
                       Line (py " second ") 0.8%float] [])
  | 3%N :: _ => Ok (rgb (640, 480)%Z [Line (py "only") 0.95%float] [])
  | 4%N :: _ => Ok grey
  | 5%N :: _ => Ok (rgb (640, 480)%Z [Line (py "x") 0.5%float]
                      ["ocr"%string])
  | 6%N :: _ => Ok big
  | 7%N :: _ => Ok sliver
  | _ => Ok (rgb (640, 480)%Z [] [])
  end.

Definition libs : Libs := {|
  Image := image;
  Array := image;
  Engine := unit;
  Image_open := decode;
  mode := s_mode;
  size := s_size;
  convert := fun img m => apply "convert" img m (s_size img);
  resize := fun img sz => apply "resize" img (s_mode img) sz;
  Contrast_enhance := fun img _ => apply "contrast" img (s_mode img) (s_size img);
  Sharpness_enhance :=
    fun img _ => apply "sharpness" img (s_mode img) (s_size img);
  np_array := fun img => Ok img;
  PaddleOCR := Ok tt;
  ocr_ocr := fun _ arr =>
    if raises "ocr" arr then Raise "recognition failed" else Ok [s_lines arr];
  list_set := fun names => rev (nodup key_eq_dec names)
|}.

End Sample.

(** Two requests for the sample collaborators. *)

Definition two_fields : post_request :=
  {| content_type := Some "multipart/form-data; boundary=x"%string;
     form := Ok [ {| field_name := Some "image1"%string;
                     field_filename := "a.png"; field_data := [3%N] |};
                  {| field_name := Some "image2"%string;
                     field_filename := "b.png"; field_data := [] |} ] |}.

Definition two_uploads : vercel_request :=
  {| method := "POST";
     files := [ {| upload_filename := "a.png"; upload_stream := [2%N] |};
                {| upload_filename := "b.png"; upload_stream := [3%N] |} ] |}.


(** * Properties *)

(** ** Whitespace normal form *)

Lemma split_go_words (s cur : str) :
  Forall (fun c => isspace c = false) cur ->
  Forall word (split_go cur s).
Proof.
  revert cur. induction s as [|c t IH]; intros cur Hcur; simpl.
  - destruct cur as [|a cur']; simpl; constructor; [|constructor].
    split.
    + intro E. apply (f_equal (@List.length _)) in E.
      rewrite length_app in E. simpl in E. lia.
    + apply Forall_app. split.
      * apply Forall_rev. now inversion Hcur.
      * constructor; [now inversion Hcur | constructor].
  - destruct (isspace c) eqn:Ec.
    + destruct cur as [|a cur']; simpl.
      * apply IH. constructor.
      * constructor; [|apply IH; constructor].
        split.
        -- intro E. apply (f_equal (@List.length _)) in E.
           rewrite length_app in E. simpl in E. lia.
        -- apply Forall_app. split.
           ++ apply Forall_rev. now inversion Hcur.
           ++ constructor; [now inversion Hcur | constructor].
    + apply IH. now constructor.
Qed.

Lemma split_words (s : str) : Forall word (split s).
Proof. apply split_go_words. constructor. Qed.

Lemma norm_from_word (w r : str) (b : bool) :
  word w -> norm_from b (w ++ r) = norm_from false r.
Proof.
  intros [Hne Hw]. revert b. induction Hw as [|c w' Hc Hw IH]; intro b.
  - now elim Hne.
  - simpl. rewrite Hc. destruct w' as [|d w''].
    + reflexivity.
    + apply IH. discriminate.
Qed.

Lemma norm_join_words (ws : list str) :
  ws <> [] -> Forall word ws -> norm_from true (join [SPACE] ws) = true.
Proof.
  intros Hne Hws. induction Hws as [|w ws' Hw Hws IH]; [now elim Hne|].
  destruct ws' as [|w' ws''].
  - simpl. rewrite <- (app_nil_r w). now rewrite norm_from_word.
  - change (join [SPACE] (w :: w' :: ws''))
      with (w ++ [SPACE] ++ join [SPACE] (w' :: ws'')).
    rewrite norm_from_word by assumption.
    simpl. apply IH. discriminate.
Qed.

Lemma normalized_join_split (s : str) :
  normalized (join [SPACE] (split s)) = true.
Proof.
  unfold normalized. destruct (split s) as [|w ws] eqn:E.
  - reflexivity.
  - rewrite norm_join_words; [apply orb_true_r | discriminate |].
    rewrite <- E. apply split_words.
Qed.

Lemma split_go_nonempty (s cur : str) : cur <> [] -> split_go cur s <> [].
Proof.
  revert cur. induction s as [|c t IH]; intros cur Hc; simpl.
  - destruct cur; [now elim Hc | discriminate].
  - destruct (isspace c).
    + destruct cur; [now elim Hc | discriminate].
    + apply IH. discriminate.
Qed.

Lemma join_cons (sep w : str) (ws : list str) :
  ws <> [] -> join sep (w :: ws) = w ++ sep ++ join sep ws.
Proof. destruct ws; [intro H; now elim H | reflexivity]. Qed.

Lemma norm_from_collapse (s cur : str) :
  norm_from (is_nil cur) s = true ->
  join [SPACE] (split_go cur s) = rev cur ++ s.
Proof.
  revert cur. induction s as [|c t IH]; intros cur H; simpl in *.
  - destruct cur; [discriminate | simpl; now rewrite app_nil_r].
  - destruct (isspace c) eqn:Ec.
    + apply andb_prop in H. destruct H as [H Ht].
      apply andb_prop in H. destruct H as [Hc Hcur].
      apply N.eqb_eq in Hc. subst c.
      destruct cur as [|a cur']; [discriminate|]. cbn [is_nil].
      assert (Hne : split_go [] t <> []).
      { destruct t as [|d t']; [discriminate|]. simpl in Ht |- *.
        destruct (isspace d).
        - rewrite andb_false_r in Ht. discriminate.
        - apply split_go_nonempty. discriminate. }
      rewrite (join_cons _ _ _ Hne). rewrite (IH [] Ht). reflexivity.
    + rewrite (IH (c :: cur) H). simpl. now rewrite <- app_assoc.
Qed.

Lemma normalized_collapse (s : str) :
  normalized s = true -> join [SPACE] (split s) = s.
Proof.
  unfold normalized. destruct s as [|c t]; [reflexivity|].
  simpl is_nil. rewrite orb_false_l. intro H.
  exact (norm_from_collapse (c :: t) [] H).
Qed.

Lemma norm_from_rstrip (s : str) (b : bool) :
  norm_from b s = true -> rstrip s = s.
Proof.
  revert b. induction s as [|c t IH]; intros b H; [reflexivity|].
  simpl in *. destruct (isspace c) eqn:Ec.
  - apply andb_prop in H. destruct H as [_ Ht].
    rewrite (IH _ Ht). destruct t; [discriminate | reflexivity].
  - rewrite (IH _ H). now destruct t.
Qed.

Lemma normalized_strip (s : str) : normalized s = true -> strip s = s.
Proof.
  unfold normalized, strip. destruct s as [|c t]; [reflexivity|].
  simpl is_nil. rewrite orb_false_l. intro H.
  assert (Hl : lstrip (c :: t) = c :: t).
  { simpl in *. destruct (isspace c); [|reflexivity].
    rewrite andb_false_r in H. discriminate. }
  rewrite Hl. exact (norm_from_rstrip _ _ H).
Qed.

Lemma norm_from_no_LF (s : str) (b : bool) :
  norm_from b s = true -> ~ In LF s.
Proof.
  revert b. induction s as [|c t IH]; intros b H; [intros []|].
  intros [E|Hin]; simpl in *.
  - subst c. change (isspace LF) with true in H. discriminate.
  - destruct (isspace c).
    + apply andb_prop in H. destruct H as [_ Ht]. exact (IH _ Ht Hin).
    + exact (IH _ H Hin).
Qed.

Lemma normalized_no_LF (s : str) : normalized s = true -> ~ In LF s.
Proof.
  unfold normalized. destruct s as [|c t]; [intros _ []|].
  simpl is_nil. rewrite orb_false_l. apply norm_from_no_LF.
Qed.

(** ** [replace] on a string that lacks a character of the pattern *)

Lemma prefixb_In (old s : str) (x : char) :
  prefixb old s = true -> In x old -> In x s.
Proof.
  revert s. induction old as [|a old' IH]; intros s H Hin; [destruct Hin|].
  destruct s as [|b s']; [discriminate|]. simpl in H.
  apply andb_prop in H. destruct H as [Hab Hp].
  apply N.eqb_eq in Hab. subst b.
  destruct Hin as [E|Hin]; [now left | right; now apply IH].
Qed.

Lemma replace_absent (old new s : str) (x : char) :
  In x old -> ~ In x s -> replace old new s = s.
Proof.
  intros Hold. unfold replace. induction s as [|c t IH]; intro Hs.
  - reflexivity.
  - simpl. destruct (prefixb old (c :: t)) eqn:E.
    + elim Hs. exact (prefixb_In _ _ _ E Hold).
    + f_equal. apply IH. intro Hin. apply Hs. now right.
Qed.

(** ** Character-wise rewritings *)

Lemma ctx_map_hd f p s :
  hd_error (ctx_map f p s) = lift f p (hd_error s) (hd_error (tl s)).
Proof. destruct s; reflexivity. Qed.

(** Two passes fuse into one when they do so at every position. *)
Lemma ctx_map_compose f g h :
  (forall pp p c n nn,
      g (lift f pp p (Some c)) (f p c n) (lift f (Some c) n nn) = h p c n) ->
  forall s pp p,
    ctx_map g (lift f pp p (hd_error s)) (ctx_map f p s) = ctx_map h p s.
Proof.
  intros Hpt. induction s as [|c t IH]; intros pp p; [reflexivity|].
  simpl. rewrite ctx_map_hd. f_equal.
  - destruct p; apply Hpt.
  - exact (IH p (Some c)).
Qed.

Lemma ctx_map_norm f :
  (forall p c n, isspace c = true -> f p c n = c) ->
  (forall p c n, isspace c = false -> isspace (f p c n) = false) ->
  forall s b p, norm_from b (ctx_map f p s) = norm_from b s.
Proof.
  intros Hs Hn. induction s as [|c t IH]; intros b p; [reflexivity|].
  simpl. destruct (isspace c) eqn:Ec.
  - rewrite (Hs _ _ _ Ec), Ec, IH. reflexivity.
  - rewrite (Hn _ _ _ Ec), IH. reflexivity.
Qed.

Lemma ctx_map_normalized f :
  (forall p c n, isspace c = true -> f p c n = c) ->
  (forall p c n, isspace c = false -> isspace (f p c n) = false) ->
  forall s, normalized (ctx_map f None s) = normalized s.
Proof.
  intros Hs Hn s. unfold normalized. rewrite (ctx_map_norm f Hs Hn).
  now destruct s.
Qed.

(** ** The substitution of [_clean_text] as one positional rule *)

Lemma letter_between_digit old new pp a c :
  is_ascii_letter c = false ->
  between_letters old new pp a (Some c) = a.
Proof.
  intro H. unfold between_letters. simpl. rewrite H.
  now rewrite andb_false_r.
Qed.

Lemma letter_between_digit' old new a c nn :
  is_ascii_letter c = false ->
  between_letters old new (Some c) a nn = a.
Proof.
  intro H. unfold between_letters. simpl. rewrite H.
  now rewrite andb_false_r.
Qed.

Lemma fuse_pointwise pp p c n nn :
  between_letters 49%N 108%N
    (lift (between_letters 48%N 79%N) pp p (Some c))
    (between_letters 48%N 79%N p c n)
    (lift (between_letters 48%N 79%N) (Some c) n nn)
  = substitute p c n.
Proof.
  destruct (N.eqb_spec c 49%N) as [->|Hc].
  - assert (H49 : is_ascii_letter 49%N = false) by reflexivity.
    assert (Ep : lift (between_letters 48%N 79%N) pp p (Some 49%N) = p)
      by (destruct p; simpl; [now rewrite letter_between_digit|reflexivity]).
    assert (En : lift (between_letters 48%N 79%N) (Some 49%N) n nn = n)
      by (destruct n; simpl; [now rewrite letter_between_digit'|reflexivity]).
    rewrite Ep, En. unfold between_letters, substitute. simpl.
    now destruct (letter_opt p), (letter_opt n).
  - unfold substitute.
    assert (E : between_letters 49%N 108%N
                  (lift (between_letters 48%N 79%N) pp p (Some c))
                  (between_letters 48%N 79%N p c n)
                  (lift (between_letters 48%N 79%N) (Some c) n nn)
                = between_letters 48%N 79%N p c n).
    { unfold between_letters at 1.
      replace (between_letters 48%N 79%N p c n =? 49)%N with false; [reflexivity|].
      symmetry. apply N.eqb_neq. unfold between_letters.
      destruct ((c =? 48)%N && letter_opt p && letter_opt n);
        [discriminate | assumption]. }
    rewrite E. unfold between_letters.
    apply N.eqb_neq in Hc. rewrite Hc.
    destruct (c =? 48)%N, (letter_opt p), (letter_opt n); reflexivity.
Qed.

Lemma apply_replacements_substitute (s : str) :
  apply_replacements s = ctx_map substitute None s.
Proof.
  unfold apply_replacements, replacements, re_sub_between. simpl.
  exact (ctx_map_compose _ _ _ fuse_pointwise s None None).
Qed.

Lemma substitute_space p c n : isspace c = true -> substitute p c n = c.
Proof.
  intro H. unfold substitute.
  destruct (letter_opt p && letter_opt n); [|reflexivity].
  destruct (N.eqb_spec c 48) as [->|_]; [discriminate|].
  destruct (N.eqb_spec c 49) as [->|_]; [discriminate|reflexivity].
Qed.

Lemma substitute_nonspace p c n :
  isspace c = false -> isspace (substitute p c n) = false.
Proof.
  intro H. unfold substitute.
  destruct (letter_opt p && letter_opt n); [|assumption].
  destruct (c =? 48)%N; [reflexivity|].
  destruct (c =? 49)%N; [reflexivity|assumption].
Qed.

Lemma substitute_digit_context c a pp nn :
  is_ascii_letter c = false ->
  lift substitute pp (Some a) (Some c) = Some a /\
  lift substitute (Some c) (Some a) nn = Some a.
Proof.
  intro H. unfold lift, substitute. simpl. rewrite H.
  now rewrite andb_false_r.
Qed.

Lemma substitute_letter_context c p n pp nn :
  is_ascii_letter c = false ->
  letter_opt (lift substitute pp p (Some c)) = letter_opt p /\
  letter_opt (lift substitute (Some c) n nn) = letter_opt n.
Proof.
  intro H. split.
  - destruct p as [a|]; [|reflexivity].
    now rewrite (proj1 (substitute_digit_context c a pp nn H)).
  - destruct n as [a|]; [|reflexivity].
    now rewrite (proj2 (substitute_digit_context c a pp nn H)).
Qed.

Lemma substitute_idem_pointwise pp p c n nn :
  substitute (lift substitute pp p (Some c)) (substitute p c n)
    (lift substitute (Some c) n nn)
  = substitute p c n.
Proof.
  destruct (N.eqb_spec c 48) as [->|H48].
  - destruct (substitute_letter_context 48 p n pp nn eq_refl) as [Ep En].
    unfold substitute at 1 3. rewrite Ep, En.
    unfold substitute. destruct (letter_opt p && letter_opt n); reflexivity.
  - destruct (N.eqb_spec c 49) as [->|H49].
    + destruct (substitute_letter_context 49 p n pp nn eq_refl) as [Ep En].
      unfold substitute at 1 3. rewrite Ep, En.
      unfold substitute. destruct (letter_opt p && letter_opt n); reflexivity.
    + assert (E : forall q r, substitute q c r = c).
      { intros q r. unfold substitute.
        apply N.eqb_neq in H48. apply N.eqb_neq in H49. rewrite H48, H49.
        now destruct (letter_opt q && letter_opt r). }
      now rewrite !E.
Qed.

Lemma substitute_idempotent (s : str) :
  ctx_map substitute None (ctx_map substitute None s)
  = ctx_map substitute None s.
Proof.
  exact (ctx_map_compose _ _ _ substitute_idem_pointwise s None None).
Qed.

(** ** What [_clean_text] computes *)

Lemma substituted_normalized (s : str) :
  normalized (ctx_map substitute None (collapse s)) = true.
Proof.
  rewrite (ctx_map_normalized substitute substitute_space
             substitute_nonspace).
  apply normalized_join_split.
Qed.

Lemma repair_normalized (t : str) :
  normalized t = true -> repair_line_breaks t = t.
Proof.
  intro H. pose proof (normalized_no_LF t H) as Hlf.
  unfold repair_line_breaks.
  rewrite (replace_absent [45; LF] [] t LF)%N;
    [|right; now left|assumption].
  apply (replace_absent [LF] [SPACE] t LF); [now left|assumption].
Qed.

Lemma clean_text_eq (s : str) :
  _clean_text s = ctx_map substitute None (collapse s).
Proof.
  unfold _clean_text. destruct s as [|c t]; [reflexivity|].
  cbv zeta. simpl is_nil. cbv iota.
  rewrite apply_replacements_substitute.
  pose proof (substituted_normalized (c :: t)) as Hn. unfold collapse in Hn.
  rewrite (repair_normalized _ Hn).
  rewrite (normalized_collapse _ Hn).
  apply normalized_strip. exact Hn.
Qed.

Lemma clean_text_without_repair_eq (s : str) :
  _clean_text_without_repair s = ctx_map substitute None (collapse s).
Proof.
  unfold _clean_text_without_repair. destruct s as [|c t]; [reflexivity|].
  cbv zeta. simpl is_nil. cbv iota.
  rewrite apply_replacements_substitute.
  pose proof (substituted_normalized (c :: t)) as Hn. unfold collapse in Hn.
  rewrite (normalized_collapse _ Hn).
  apply normalized_strip. exact Hn.
Qed.

Lemma clean_text_normalized (s : str) : normalized (_clean_text s) = true.
Proof. rewrite clean_text_eq. apply substituted_normalized. Qed.

Lemma ctx_map_nth f (s : str) :
  forall p i,
    nth_error (ctx_map f p s) i =
    option_map
      (fun c => f (match i with O => p | S j => nth_error s j end) c
                  (nth_error s (S i)))
      (nth_error s i).
Proof.
  induction s as [|c t IH]; intros p i.
  - now destruct i.
  - destruct i as [|j]; simpl.
    + now destruct t.
    + rewrite IH. now destruct j.
Qed.

(** ** The normalizer *)

(** C4 (as amended).  For every input, the normalizer's output is the
    whitespace-collapsed input in which a ['0'] became ['O'] and a ['1'] became
    ['l'] exactly at the positions whose two neighbours are letters of
    [[a-zA-Z]], every other character being kept: ["a0b"] gives ["aOb"],
    ["10"] is unchanged, and [" 0 "] keeps its digit and loses its blanks. *)
Theorem clean_text_substitution (s : str) :
  (forall i,
      nth_error (_clean_text s) i =
      option_map
        (fun c =>
           if letter_opt (prev_char (collapse s) i)
              && letter_opt (next_char (collapse s) i)
           then (if (c =? 48)%N then 79%N
                 else if (c =? 49)%N then 108%N else c)
           else c)
        (nth_error (collapse s) i))
  /\ List.length (_clean_text s) = List.length (collapse s)
  /\ _clean_text (py "a0b") = py "aOb"
  /\ _clean_text (py "10") = py "10"
  /\ _clean_text (py " 0 ") = py "0".
Proof.
  split; [|split; [|repeat split; reflexivity]].
  - intro i. rewrite clean_text_eq, ctx_map_nth. reflexivity.
  - rewrite clean_text_eq. generalize (@None N).
    induction (collapse s) as [|c t IH]; intro p; simpl; [reflexivity|].
    now rewrite IH.
Qed.

(** C4 as stated fails on its own example: the normalizer turns [" 0 "]
    into ["0"]. *)
Lemma clean_text_blank_zero_changed : _clean_text (py " 0 ") <> py " 0 ".
Proof. vm_compute. discriminate. Qed.

(** C5.  Text normalization is idempotent. *)
Theorem clean_text_idempotent (s : str) :
  _clean_text (_clean_text s) = _clean_text s.
Proof.
  rewrite (clean_text_eq (_clean_text s)).
  unfold collapse at 1.
  rewrite (normalized_collapse _ (clean_text_normalized s)).
  rewrite clean_text_eq. apply substitute_idempotent.
Qed.

(** C10.  The line-break repair is the identity on the text it receives,
    which holds no line feed, so the normalizer equals the normalizer with
    that step removed. *)
Theorem repair_line_breaks_noop (s : str) :
  _clean_text s = _clean_text_without_repair s
  /\ repair_line_breaks (apply_replacements (collapse s))
     = apply_replacements (collapse s)
  /\ ~ In LF (collapse s)
  /\ ~ In LF (apply_replacements (collapse s)).
Proof.
  pose proof (substituted_normalized s) as Hn.
  rewrite <- apply_replacements_substitute in Hn.
  repeat split.
  - now rewrite clean_text_eq, clean_text_without_repair_eq.
  - now apply repair_normalized.
  - apply normalized_no_LF. apply normalized_join_split.
  - now apply normalized_no_LF.
Qed.

(** ** Confidences *)

Lemma len_not_zero {A} (x : A) (l : list A) : is_zero (len (x :: l)) = false.
Proof. unfold len, is_zero. apply Z.eqb_neq. simpl List.length. lia. Qed.

Lemma truediv_len {A} (a : num) (x : A) (l : list A) :
  truediv a (len (x :: l))
  = Ok (PyFloat (to_float a / to_float (len (x :: l)))).
Proof. unfold truediv. now rewrite len_not_zero. Qed.

Lemma average_percent (confidences : list num) :
  exists a, average confidences = Ok a
            /\ mul a (PyInt 100) = mean_percent confidences.
Proof.
  destruct confidences as [|c l].
  - exists (PyInt 0). split; reflexivity.
  - eexists. split.
    + unfold average. simpl is_nil. cbv iota. apply truediv_len.
    + reflexivity.
Qed.

Section Confidence.

Context {L : Libs}.

(** C1 (as amended).  When decoding and recognition succeed, the per-image
    confidence of both entry points is the binary64 mean of the confidences
    of the kept lines times 100, and the int 0 when no line is kept.  For
    [0.95] that is 95.0; for [0.9, 0.8] it is 85.00000000000001, the float
    next above 85.0. *)
Theorem image_confidence_mean :
  (forall (ocr : Engine) data name index img arr out,
      Image_open data = Ok img ->
      np_array (_preprocess_image img) = Ok arr ->
      ocr_ocr ocr arr = Ok out ->
      confidence (_process_image ocr data name index)
      = mean_percent (snd (parse_result out)))
  /\ (forall (ocr : Engine) i file img img' arr out,
      Image_open (upload_stream file) = Ok img ->
      handler_preprocess img = Ok img' ->
      np_array img' = Ok arr ->
      ocr_ocr ocr arr = Ok out ->
      confidence (handler_image ocr i file)
      = mean_percent (snd (parse_result out)))
  /\ mean_percent [] = PyInt 0
  /\ mean_percent [PyFloat 0.95] = PyFloat 95
  /\ mean_percent [PyFloat 0.9; PyFloat 0.8] = PyFloat 85.00000000000001.
Proof.
  split; [|split; [|repeat split; reflexivity]].
  - intros ocr data name index img arr out Hopen Harr Hocr.
    unfold _process_image, process_image_try.
    rewrite Hopen. simpl bind. rewrite Harr. simpl bind.
    rewrite Hocr. simpl bind.
    destruct (parse_result out) as [text_parts confidences].
    destruct (average_percent confidences) as [a [Ha Hm]].
    rewrite Ha. simpl. exact Hm.
  - intros ocr i file img img' arr out Hopen Hpre Harr Hocr.
    unfold handler_image, handler_image_try.
    rewrite Hopen. simpl bind. rewrite Hpre. simpl bind.
    rewrite Harr. simpl bind. rewrite Hocr. simpl bind.
    destruct (parse_result out) as [text_parts confidences].
    destruct (average_percent confidences) as [a [Ha Hm]].
    rewrite Ha. simpl. exact Hm.
Qed.

End Confidence.

Lemma image_confidence_mean_witness :
  confidence (@_process_image Sample.libs tt [3%N] "a.png" 1) = PyFloat 95.
Proof.
  pose proof (proj1 (@image_confidence_mean Sample.libs) tt [3%N]
                "a.png"%string 1%nat _ _ _ eq_refl eq_refl eq_refl) as H.
  rewrite H. reflexivity.
Defined.

(** C1 as stated fails on its own example: line confidences [0.9, 0.8] do
    not give 85.0. *)
Lemma image_confidence_not_85 :
  snd (parse_result [Sample.s_lines
         (Sample.rgb (640, 480)%Z
            [Line (py "first") 0.9; Line (py "second") 0.8] [])])
  = [PyFloat 0.9; PyFloat 0.8]
  /\ confidence (@_process_image Sample.libs tt [2%N] "a.png" 1)
     = PyFloat 85.00000000000001
  /\ confidence (@_process_image Sample.libs tt [2%N] "a.png" 1)
     <> PyFloat 85.
Proof.
  split; [reflexivity|]. split; [reflexivity|].
  intro H.
  apply (f_equal (fun n => PrimFloat.eqb (to_float n) 85)) in H.
  vm_compute in H. discriminate.
Qed.

Lemma truediv_mean (rs : list ImageResult) :
  rs <> [] ->
  truediv (py_sum (map confidence rs)) (len rs)
  = Ok (arithmetic_mean (map confidence rs)).
Proof.
  destruct rs as [|r rs']; [intro H; now elim H | intros _].
  rewrite truediv_len. unfold arithmetic_mean, len.
  now rewrite length_map.
Qed.

(** ** Trimmed strings *)

Lemma lstrip_length (s : str) : (List.length (lstrip s) <= List.length s)%nat.
Proof.
  induction s as [|c t IH]; simpl; [lia|].
  destruct (isspace c); simpl; lia.
Qed.

Lemma lstrip_fixed_head (c : char) (t : str) :
  lstrip (c :: t) = c :: t -> isspace c = false.
Proof.
  simpl. destruct (isspace c); [|reflexivity]. intro H.
  pose proof (lstrip_length t) as Hl. rewrite H in Hl. simpl in Hl. lia.
Qed.

Lemma lstrip_idem (s : str) : lstrip (lstrip s) = lstrip s.
Proof.
  induction s as [|c t IH]; [reflexivity|]. simpl.
  destruct (isspace c) eqn:Ec; [exact IH|]. simpl. now rewrite Ec.
Qed.

Lemma rstrip_cons (c : char) (t : str) :
  rstrip (c :: t) =
  match rstrip t with
  | [] => if isspace c then [] else [c]
  | r => c :: r
  end.
Proof. reflexivity. Qed.

Lemma rstrip_idem (s : str) : rstrip (rstrip s) = rstrip s.
Proof.
  induction s as [|c t IH]; [reflexivity|].
  rewrite rstrip_cons. destruct (rstrip t) as [|d r] eqn:E.
  - destruct (isspace c) eqn:Ec; [reflexivity|].
    rewrite rstrip_cons. simpl rstrip. now rewrite Ec.
  - rewrite rstrip_cons, IH. reflexivity.
Qed.

Lemma lstrip_rstrip_fixed (u : str) :
  lstrip u = u -> lstrip (rstrip u) = rstrip u.
Proof.
  destruct u as [|c t]; [reflexivity|]. intro H.
  pose proof (lstrip_fixed_head c t H) as Ec.
  rewrite rstrip_cons. destruct (rstrip t); rewrite ?Ec; simpl;
    now rewrite Ec.
Qed.

Lemma strip_trimmed (t : str) : strip t <> [] -> trimmed (strip t).
Proof.
  intro Hne. split; [assumption|]. unfold strip. split.
  - apply lstrip_rstrip_fixed. apply lstrip_idem.
  - apply rstrip_idem.
Qed.

Lemma rstrip_app_fixed (a b : str) :
  b <> [] -> rstrip b = b -> rstrip (a ++ b) = a ++ b.
Proof.
  intros Hne Hb. induction a as [|c a' IH]; [exact Hb|].
  simpl app. rewrite rstrip_cons, IH.
  destruct (a' ++ b) eqn:E; [|reflexivity].
  apply app_eq_nil in E. now elim Hne.
Qed.

Lemma join_nonempty (sep w : str) (ws : list str) :
  w <> [] -> join sep (w :: ws) <> [].
Proof.
  intros Hw. destruct ws as [|w' ws'].
  - exact Hw.
  - rewrite join_cons by discriminate. destruct w; [now elim Hw|discriminate].
Qed.

Lemma rstrip_join (ws : list str) :
  Forall trimmed ws -> rstrip (join [SPACE] ws) = join [SPACE] ws.
Proof.
  induction 1 as [|w ws' Hw Hws IH]; [reflexivity|].
  destruct ws' as [|w' ws''].
  - exact (proj2 (proj2 Hw)).
  - rewrite join_cons by discriminate.
    rewrite app_assoc. apply rstrip_app_fixed; [|exact IH].
    apply join_nonempty. inversion Hws as [|? ? Hw' _]. exact (proj1 Hw').
Qed.

Lemma strip_join (ws : list str) :
  Forall trimmed ws -> strip (join [SPACE] ws) = join [SPACE] ws.
Proof.
  intro H. unfold strip.
  assert (Hl : lstrip (join [SPACE] ws) = join [SPACE] ws).
  { destruct H as [|w ws' [Hne [Hlw _]] Hws]; [reflexivity|].
    destruct w as [|c w']; [now elim Hne|].
    pose proof (lstrip_fixed_head c w' Hlw) as Ec.
    destruct ws'; simpl; now rewrite Ec. }
  rewrite Hl. now apply rstrip_join.
Qed.

Lemma parse_lines_trimmed (lines : list ocr_line) :
  Forall trimmed (fst (parse_lines lines)).
Proof.
  induction lines as [|line rest IH]; [constructor|].
  simpl. destruct (parse_lines rest) as [text_parts confidences].
  destruct line as [|t c]; [exact IH|].
  destruct (is_nil t); [exact IH|]. simpl.
  destruct (strip t) as [|d r] eqn:E; [exact IH|]. simpl.
  constructor; [|exact IH]. rewrite <- E. apply strip_trimmed.
  rewrite E. discriminate.
Qed.

Lemma parse_result_trimmed (out : ocr_output) :
  Forall trimmed (fst (parse_result out)).
Proof. destruct out; [constructor | apply parse_lines_trimmed]. Qed.

(** ** Preprocessing failures *)

Section Preprocessing.

Context {L : Libs}.

(** C7 (as amended).  [OCRHandler._preprocess_image] never raises: when a
    step raises it returns the image as it stood just before that step.  The
    in-line preprocessing of [handler] has three steps and no guard of its
    own: a step that raises there raises out of it. *)
Theorem preprocess_failure_policy (image : Image) :
  (forall msg,
      convert_step image = Raise msg -> _preprocess_image image = image)
  /\ (forall i1 msg,
      convert_step image = Ok i1 -> resize_step i1 = Raise msg ->
      _preprocess_image image = i1)
  /\ (forall i1 i2 msg,
      convert_step image = Ok i1 -> resize_step i1 = Ok i2 ->
      contrast_step i2 = Raise msg ->
      _preprocess_image image = i2)
  /\ (forall i1 i2 i3 msg,
      convert_step image = Ok i1 -> resize_step i1 = Ok i2 ->
      contrast_step i2 = Ok i3 -> sharpness_step i3 = Raise msg ->
      _preprocess_image image = i3)
  /\ (forall i1 i2 i3 i4,
      convert_step image = Ok i1 -> resize_step i1 = Ok i2 ->
      contrast_step i2 = Ok i3 -> sharpness_step i3 = Ok i4 ->
      _preprocess_image image = i4)
  /\ (forall msg,
      convert_step image = Raise msg ->
      handler_preprocess image = Raise msg)
  /\ (forall i1 msg,
      convert_step image = Ok i1 -> resize_step i1 = Raise msg ->
      handler_preprocess image = Raise msg)
  /\ (forall i1 i2 msg,
      convert_step image = Ok i1 -> resize_step i1 = Ok i2 ->
      contrast_step i2 = Raise msg ->
      handler_preprocess image = Raise msg)
  /\ (forall i1 i2 i3,
      convert_step image = Ok i1 -> resize_step i1 = Ok i2 ->
      contrast_step i2 = Ok i3 ->
      handler_preprocess image = Ok i3).
Proof.
  unfold _preprocess_image, handler_preprocess, seq_stmt, assign.
  repeat split; intros;
    repeat match goal with
    | H : _ = Ok _ |- _ => rewrite H; clear H
    | H : _ = Raise _ |- _ => rewrite H; clear H
    end; reflexivity.
Qed.

End Preprocessing.

Lemma preprocess_failure_policy_witness :
  @sharpness_step Sample.libs
    (Sample.after Sample.big ["resize"; "contrast"]%string)
  = Raise "sharpness failed"
  /\ @_preprocess_image Sample.libs Sample.big
     = Sample.after Sample.big ["resize"; "contrast"]%string.
Proof.
  split; [reflexivity|].
  apply (proj1 (proj2 (proj2 (proj2
           (@preprocess_failure_policy Sample.libs Sample.big))))
         Sample.big (Sample.after Sample.big ["resize"%string])
         _ "sharpness failed"%string);
    vm_compute; reflexivity.
Defined.

(** C7 as stated fails in [handler]: a conversion that raises is not
    absorbed, it raises out of the preprocessing and the image gets the
    error record. *)
Lemma handler_preprocess_escalates :
  @handler_preprocess Sample.libs Sample.grey = Raise "convert failed"
  /\ @handler_image Sample.libs tt 0
       {| upload_filename := "g.png"; upload_stream := [4%N] |}
     = error_record "g.png" "convert failed".
Proof. split; reflexivity. Qed.

(** ** Per-image failure *)

Section Isolation.

Context {L : Libs}.

Lemma handler_loop_length (ocr : Engine) (fs : list upload) :
  forall i, List.length (handler_loop ocr i fs) = List.length fs.
Proof.
  induction fs as [|f rest IH]; intro i; [reflexivity|].
  simpl. now rewrite IH.
Qed.

Lemma handler_loop_nth (ocr : Engine) (fs : list upload) :
  forall i k,
    nth_error (handler_loop ocr i fs) k =
    option_map (handler_image ocr (i + k)) (nth_error fs k).
Proof.
  induction fs as [|f rest IH]; intros i k.
  - now destruct k.
  - destruct k as [|k']; simpl.
    + now rewrite Nat.add_0_r.
    + rewrite IH. now rewrite Nat.add_succ_r.
Qed.

End Isolation.

(** ** The two entry points *)

Section EntryPoints.

Context {L : Libs}.

(** C6 (as amended).  On the same engine output the two entry points agree
    on [confidence] and [lines_detected], and neither record carries an
    error; the text of [OCRHandler] is the normalizer applied to the text of
    [handler], which is the bare join of the lines, and each
    [character_count] is the length of its own text.  The records therefore
    agree on all four fields exactly when the normalizer leaves the joined
    text unchanged. *)
Theorem entry_points_compared (ocr : Engine) data name index i file
    img arr img0 img1 arr1 out :
  Image_open data = Ok img ->
  np_array (_preprocess_image img) = Ok arr ->
  ocr_ocr ocr arr = Ok out ->
  Image_open (upload_stream file) = Ok img0 ->
  handler_preprocess img0 = Ok img1 ->
  np_array img1 = Ok arr1 ->
  ocr_ocr ocr arr1 = Ok out ->
  let r1 := _process_image ocr data name index in
  let r2 := handler_image ocr i file in
  confidence r1 = confidence r2
  /\ lines_detected r1 = lines_detected r2
  /\ error r1 = None /\ error r2 = None
  /\ text r2 = join [SPACE] (fst (parse_result out))
  /\ text r1 = _clean_text (text r2)
  /\ character_count r1 = List.length (text r1)
  /\ character_count r2 = List.length (text r2)
  /\ (_clean_text (text r2) = text r2 <->
      text r1 = text r2 /\ character_count r1 = character_count r2).
Proof.
  intros Hopen Harr Hocr Hopen0 Hpre Harr1 Hocr1 r1 r2.
  subst r1 r2.
  unfold _process_image, process_image_try, handler_image, handler_image_try.
  rewrite Hopen, Hopen0. simpl bind.
  rewrite Harr, Hpre. simpl bind.
  rewrite Hocr, Harr1. simpl bind. rewrite Hocr1. simpl bind.
  pose proof (parse_result_trimmed out) as Htr.
  destruct (parse_result out) as [text_parts confidences]. simpl in Htr.
  destruct (average_percent confidences) as [a [Ha _]].
  rewrite Ha. simpl. rewrite (strip_join _ Htr).
  do 8 (split; [reflexivity|]).
  split.
  - intro E. now rewrite E.
  - intros [E _]. exact E.
Qed.

End EntryPoints.

Lemma entry_points_compared_witness :
  text (@_process_image Sample.libs tt [1%N] "a.png" 1)
  = _clean_text
      (text (@handler_image Sample.libs tt 0
               {| upload_filename := "a.png"; upload_stream := [1%N] |})).
Proof.
  refine (proj1 (proj2 (proj2 (proj2 (proj2 (proj2
    (@entry_points_compared Sample.libs tt [1%N] "a.png"%string 1%nat 0%nat
       {| upload_filename := "a.png"; upload_stream := [1%N] |}
       _ _ _ _ _ _ eq_refl eq_refl eq_refl eq_refl eq_refl eq_refl
       eq_refl))))))).
Defined.

(** C6 as stated fails: on the one line ["a0b"] the two entry points return
    different texts. *)
Lemma entry_points_differ :
  text (@_process_image Sample.libs tt [1%N] "a.png" 1) = py "aOb"
  /\ text (@handler_image Sample.libs tt 0
             {| upload_filename := "a.png"; upload_stream := [1%N] |})
     = py "a0b"
  /\ @_process_image Sample.libs tt [1%N] "a.png" 1
     <> @handler_image Sample.libs tt 0
          {| upload_filename := "a.png"; upload_stream := [1%N] |}.
Proof.
  repeat split; try reflexivity.
  intro H. apply (f_equal text) in H. vm_compute in H. discriminate.
Qed.

(** ** Resizing *)

Lemma halves_all : forallb halves (seq 0 4097) = true.
Proof. vm_compute. reflexivity. Qed.

Lemma scaled_4096 (d : Z) :
  (0 <= d <= 4096)%Z -> scaled d 4096 = Ok (d / 2)%Z.
Proof.
  intro Hd.
  pose proof (proj1 (forallb_forall halves (seq 0 4097)) halves_all
                (Z.to_nat d)) as H.
  assert (Hin : In (Z.to_nat d) (seq 0 4097)) by (apply in_seq; lia).
  specialize (H Hin). unfold halves in H.
  rewrite Z2Nat.id in H by lia.
  destruct (scaled d 4096) as [v|msg]; [|discriminate].
  apply Z.eqb_eq in H. now subst v.
Qed.

Lemma new_size_scaled (w h : Z) :
  (max_size < Z.max w h)%Z ->
  new_size (w, h) =
  (w' <- scaled w (Z.max w h) ;; h' <- scaled h (Z.max w h) ;; Ok (w', h')).
Proof.
  intro H. unfold new_size, truediv. simpl fst. simpl snd.
  replace (is_zero (PyInt (Z.max w h))) with false; [reflexivity|].
  symmetry. apply Z.eqb_neq. unfold max_size in H. lia.
Qed.

(** The example of the specification for the batch mean: per-image
    confidences 85.00000000000001 and 95.0 average to 90.0. *)
Lemma batch_mean_example :
  arithmetic_mean [PyFloat 85.00000000000001; PyFloat 95] = PyFloat 90.
Proof. reflexivity. Qed.

(** The longer side does not always become 2048: in binary64,
    [3136 * (2048 / 3136)] is just below 2048 and truncates to 2047. *)
Lemma longer_side_3136 : new_size (3136, 1000)%Z = Ok (2047, 653)%Z.
Proof. vm_compute. reflexivity. Qed.

(** * Further properties of the normalizer *)

Lemma ctx_map_length f (s : str) :
  forall p, List.length (ctx_map f p s) = List.length s.
Proof.
  induction s as [|c t IH]; intro p; simpl; [reflexivity|]. now rewrite IH.
Qed.

Lemma join_split_go_length (s cur : str) :
  (List.length (join [SPACE] (split_go cur s))
   <= List.length cur + List.length s)%nat.
Proof.
  revert cur. induction s as [|c t IH]; intro cur; simpl split_go.
  - destruct cur; simpl; [lia|].
    rewrite length_app, length_rev. simpl. lia.
  - destruct (isspace c).
    + destruct cur as [|a cur'].
      * specialize (IH []). simpl in *. lia.
      * specialize (IH []). simpl is_nil. cbv iota.
        destruct (split_go [] t) as [|w ws] eqn:E.
        -- simpl. rewrite length_app, length_rev. simpl. lia.
        -- rewrite join_cons by discriminate.
           rewrite !length_app, length_rev. simpl in *. lia.
    + specialize (IH (c :: cur)). simpl in *. lia.
Qed.

Lemma split_go_nil (s cur : str) :
  split_go cur s = [] <-> cur = [] /\ forallb isspace s = true.
Proof.
  revert cur. induction s as [|c t IH]; intro cur; simpl.
  - destruct cur; simpl; split; try tauto; try discriminate.
    intros [H _]. discriminate.
  - destruct (isspace c); simpl.
    + destruct cur as [|a cur']; simpl.
      * rewrite IH. tauto.
      * split; [discriminate|]. intros [H _]. discriminate.
    + rewrite IH. split; [intros [H _]; discriminate|].
      intros [_ H]. discriminate.
Qed.

Lemma collapse_nil (s : str) :
  collapse s = [] <-> forallb isspace s = true.
Proof.
  unfold collapse, split. split.
  - intro H. destruct (split_go [] s) as [|w ws] eqn:E.
    + apply split_go_nil in E. tauto.
    + exfalso. revert H. apply join_nonempty.
      pose proof (split_words s) as Hw. unfold split in Hw. rewrite E in Hw.
      inversion Hw as [|? ? [Hne _] _]. exact Hne.
  - intro H. assert (E : split_go [] s = []) by (apply split_go_nil; tauto).
    now rewrite E.
Qed.

Lemma split_go_Forall (P : char -> Prop) (s cur : str) :
  Forall P cur -> Forall P s -> Forall (Forall P) (split_go cur s).
Proof.
  revert cur. induction s as [|c t IH]; intros cur Hcur Hs;
    cbn [split_go].
  - destruct cur; cbn [is_nil]; constructor; [|constructor].
    now apply Forall_rev.
  - inversion Hs as [|? ? Hc Ht]; subst. destruct (isspace c).
    + destruct cur; cbn [is_nil].
      * apply IH; [constructor | assumption].
      * constructor; [now apply Forall_rev|].
        apply IH; [constructor | assumption].
    + apply IH; [now constructor | assumption].
Qed.

Lemma join_Forall (P : char -> Prop) (sep : str) (ws : list str) :
  Forall P sep -> Forall (Forall P) ws -> Forall P (join sep ws).
Proof.
  intros Hsep. induction 1 as [|w ws' Hw Hws IH]; [constructor|].
  destruct ws' as [|w' ws'']; [exact Hw|].
  rewrite join_cons by discriminate.
  apply Forall_app. split; [exact Hw|].
  apply Forall_app. split; assumption.
Qed.

Lemma collapse_Forall (P : char -> Prop) (s : str) :
  P SPACE -> Forall P s -> Forall P (collapse s).
Proof.
  intros Hsp Hs. apply join_Forall; [now constructor|].
  apply split_go_Forall; [constructor | assumption].
Qed.

Lemma substitute_no_letters (t : str) :
  Forall (fun c => is_ascii_letter c = false) t ->
  forall p, ctx_map substitute p t = t.
Proof.
  induction 1 as [|c t' Hc Ht IH]; intro p; [reflexivity|].
  simpl. rewrite IH. f_equal. unfold substitute.
  destruct Ht as [|d t'' Hd _]; simpl.
  - now rewrite andb_false_r.
  - rewrite Hd. now rewrite andb_false_r.
Qed.

Lemma substitute_no_digits (t : str) :
  Forall (fun c => c <> 48%N /\ c <> 49%N) t ->
  forall p, ctx_map substitute p t = t.
Proof.
  induction 1 as [|c t' [H0 H1] Ht IH]; intro p; [reflexivity|].
  simpl. rewrite IH. f_equal. unfold substitute.
  apply N.eqb_neq in H0. apply N.eqb_neq in H1. rewrite H0, H1.
  now destruct (letter_opt p && letter_opt (hd_error t')).
Qed.

(** X1.  The normalizer never lengthens its input, and returns the empty
    string exactly on the inputs made of whitespace only. *)
Theorem clean_text_shrinks (s : str) :
  (List.length (_clean_text s) <= List.length s)%nat
  /\ (_clean_text s = [] <-> forallb isspace s = true).
Proof.
  rewrite clean_text_eq. split.
  - rewrite ctx_map_length.
    exact (join_split_go_length s []).
  - rewrite <- collapse_nil. split.
    + intro H. apply (f_equal (@List.length _)) in H.
      rewrite ctx_map_length in H. now destruct (collapse s).
    + intro H. now rewrite H.
Qed.

(** X2.  A text without any letter of [[a-zA-Z]], and a text without any
    ['0'] or ['1'], only have their whitespace collapsed: no character is
    substituted. *)
Theorem clean_text_keeps_numbers (s : str) :
  Forall (fun c => is_ascii_letter c = false) s
  \/ Forall (fun c => c <> 48%N /\ c <> 49%N) s ->
  _clean_text s = collapse s.
Proof.
  rewrite clean_text_eq. intros [H|H].
  - apply substitute_no_letters.
    apply collapse_Forall; [reflexivity | assumption].
  - apply substitute_no_digits.
    apply collapse_Forall; [split; discriminate | assumption].
Qed.

Lemma clean_text_keeps_numbers_witness :
  _clean_text (py "10  01 ") = py "10 01".
Proof.
  rewrite (clean_text_keeps_numbers (py "10  01 ")).
  - reflexivity.
  - left. repeat constructor.
Defined.

Lemma norm_from_only_spaces (s : str) (b : bool) :
  norm_from b s = true -> Forall (fun c => isspace c = true -> c = SPACE) s.
Proof.
  revert b. induction s as [|c t IH]; intros b H; [constructor|].
  simpl in H. destruct (isspace c) eqn:Ec.
  - apply andb_prop in H. destruct H as [H Ht].
    apply andb_prop in H. destruct H as [Hc _]. apply N.eqb_eq in Hc.
    constructor; [intros _; exact Hc | exact (IH _ Ht)].
  - constructor; [intro E; congruence | exact (IH _ H)].
Qed.

Lemma norm_from_space_next (s : str) (b : bool) :
  norm_from b s = true ->
  forall i, nth_error s i = Some SPACE ->
            exists c, nth_error s (S i) = Some c /\ isspace c = false.
Proof.
  revert b. induction s as [|c t IH]; intros b H i Hi.
  - now destruct i.
  - simpl in H. destruct i as [|j].
    + assert (Ec : c = SPACE) by (simpl in Hi; congruence). subst c.
      change (isspace SPACE) with true in H. cbv iota in H.
      apply andb_prop in H. destruct H as [_ Ht].
      destruct t as [|d t']; [discriminate|]. simpl in Ht.
      exists d. split; [reflexivity|].
      destruct (isspace d); [|reflexivity].
      rewrite andb_false_r in Ht. discriminate.
    + simpl in Hi. change (nth_error (c :: t) (S (S j)))
        with (nth_error t (S j)).
      destruct (isspace c).
      * apply andb_prop in H. destruct H as [_ Ht]. exact (IH _ Ht j Hi).
      * exact (IH _ H j Hi).
Qed.

(** X3.  In the normalizer's output the only whitespace is the single
    space: there is none at either end, and every space is followed by a
    character that is not whitespace. *)
Theorem clean_text_whitespace (s : str) :
  Forall (fun c => isspace c = true -> c = SPACE) (_clean_text s)
  /\ strip (_clean_text s) = _clean_text s
  /\ ~ In LF (_clean_text s)
  /\ (forall i, nth_error (_clean_text s) i = Some SPACE ->
        exists c, nth_error (_clean_text s) (S i) = Some c
                  /\ isspace c = false).
Proof.
  pose proof (clean_text_normalized s) as Hn.
  split; [|split; [|split]].
  - unfold normalized in Hn. destruct (_clean_text s) as [|c t];
      [constructor|]. exact (norm_from_only_spaces _ _ Hn).
  - now apply normalized_strip.
  - now apply normalized_no_LF.
  - unfold normalized in Hn. destruct (_clean_text s) as [|c t].
    + intros i Hi. now destruct i.
    + exact (norm_from_space_next _ _ Hn).
Qed.

Lemma split_go_word_prefix (w r cur : str) :
  Forall (fun c => isspace c = false) w ->
  split_go cur (w ++ r) = split_go (rev w ++ cur) r.
Proof.
  intro Hw. revert cur. induction Hw as [|c w' Hc Hw IH]; intro cur.
  - reflexivity.
  - simpl. rewrite Hc, IH. now rewrite <- app_assoc.
Qed.

(** Splitting the space-join of a list of words gives the words back. *)
Lemma split_join_words (ws : list str) :
  Forall word ws -> split (join [SPACE] ws) = ws.
Proof.
  unfold split. induction 1 as [|w ws' [Hne Hw] Hws IH]; [reflexivity|].
  destruct ws' as [|w' ws''].
  - cbn [join]. rewrite <- (app_nil_r w) at 1.
    rewrite split_go_word_prefix by assumption.
    rewrite app_nil_r. cbn [split_go].
    destruct (rev w) eqn:E.
    + apply (f_equal (@rev _)) in E. rewrite rev_involutive in E.
      now elim Hne.
    + cbn [is_nil]. rewrite <- E. now rewrite rev_involutive.
  - rewrite join_cons by discriminate.
    rewrite split_go_word_prefix by assumption.
    rewrite app_nil_r. cbn [app split_go].
    change (isspace SPACE) with true. cbv iota.
    destruct (rev w) eqn:E.
    + apply (f_equal (@rev _)) in E. rewrite rev_involutive in E.
      now elim Hne.
    + cbn [is_nil]. rewrite <- E. rewrite rev_involutive.
      f_equal. exact IH.
Qed.

Lemma split_go_ctx_map f :
  (forall p c n, isspace c = true -> f p c n = c) ->
  (forall p c n, isspace c = false -> isspace (f p c n) = false) ->
  forall s cur cur' p,
    List.length cur' = List.length cur ->
    map (@List.length _) (split_go cur' (ctx_map f p s))
    = map (@List.length _) (split_go cur s).
Proof.
  intros Hs Hn. induction s as [|c t IH]; intros cur cur' p Hlen.
  - cbn [ctx_map split_go].
    destruct cur, cur'; try discriminate; cbn [is_nil map]; [reflexivity|].
    rewrite !length_rev. now rewrite Hlen.
  - cbn [ctx_map split_go]. destruct (isspace c) eqn:Ec.
    + rewrite (Hs _ _ _ Ec), Ec.
      destruct cur, cur'; try discriminate; cbn [is_nil map].
      * now apply IH.
      * rewrite !length_rev, Hlen. f_equal. now apply IH.
    + rewrite (Hn _ _ _ Ec). apply IH. simpl. now rewrite Hlen.
Qed.

(** X4.  The normalizer neither merges nor breaks words: the words of its
    output are as many as the words of the input, each of the same
    length. *)
Theorem clean_text_words (s : str) :
  map (@List.length _) (split (_clean_text s))
  = map (@List.length _) (split s).
Proof.
  rewrite clean_text_eq. unfold split at 1.
  rewrite (split_go_ctx_map substitute substitute_space substitute_nonspace
             (collapse s) [] [] None eq_refl).
  change (split_go [] (collapse s)) with (split (collapse s)).
  unfold collapse. now rewrite (split_join_words _ (split_words s)).
Qed.

(** * Further properties of the per-image records *)

Lemma parse_lines_lengths (lines : list ocr_line) :
  List.length (fst (parse_lines lines)) = List.length (snd (parse_lines lines))
  /\ (List.length (fst (parse_lines lines)) <= List.length lines)%nat.
Proof.
  induction lines as [|line rest [IH1 IH2]]; [split; reflexivity|].
  simpl. destruct (parse_lines rest) as [text_parts confidences].
  simpl in IH1, IH2.
  destruct line as [|t c]; [simpl; lia|].
  destruct (negb (is_nil t) && negb (is_nil (strip t))); simpl; lia.
Qed.

Lemma parse_result_lengths (out : ocr_output) :
  List.length (fst (parse_result out)) = List.length (snd (parse_result out)).
Proof. destruct out; [reflexivity | apply parse_lines_lengths]. Qed.

(** X5.  Parsing reads the first element of the engine result only, keeps
    the two lists in step, keeps at most one entry per engine line, and
    every kept text is non-empty with no whitespace at either end. *)
Theorem parse_result_lockstep (out : ocr_output) :
  List.length (fst (parse_result out)) = List.length (snd (parse_result out))
  /\ (List.length (fst (parse_result out)) <= List.length (hd [] out))%nat
  /\ Forall (fun w => w <> [] /\ strip w = w) (fst (parse_result out))
  /\ parse_result out = parse_result [hd [] out].
Proof.
  split; [|split; [|split]].
  - destruct out; [reflexivity | apply parse_lines_lengths].
  - destruct out; [simpl; lia | apply parse_lines_lengths].
  - pose proof (parse_result_trimmed out) as H.
    induction H as [|w ws [Hne [Hl Hr]] Hws IH]; constructor; [|exact IH].
    split; [exact Hne|]. unfold strip. now rewrite Hl.
  - now destruct out.
Qed.

Lemma clean_text_nil (s : str) :
  _clean_text s = [] <-> forallb isspace s = true.
Proof.
  rewrite clean_text_eq, <- collapse_nil. split.
  - intro H. apply (f_equal (@List.length _)) in H.
    rewrite ctx_map_length in H. now destruct (collapse s).
  - intro H. now rewrite H.
Qed.

Lemma join_trimmed_not_blank (w : str) (ws : list str) :
  trimmed w -> forallb isspace (join [SPACE] (w :: ws)) = false.
Proof.
  intros [Hne [Hl _]]. destruct w as [|c w']; [now elim Hne|].
  pose proof (lstrip_fixed_head c w' Hl) as Ec.
  destruct ws; simpl; now rewrite Ec.
Qed.

Section Records.

Context {L : Libs}.

Lemma process_image_try_ok (ocr : Engine) data name r :
  process_image_try ocr data name = Ok r ->
  exists text_parts confidences,
    List.length text_parts = List.length confidences
    /\ Forall trimmed text_parts
    /\ r = {| filename := name;
              text := _clean_text (join [SPACE] text_parts);
              confidence := mean_percent confidences;
              error := None;
              character_count :=
                List.length (_clean_text (join [SPACE] text_parts));
              lines_detected := List.length text_parts |}.
Proof.
  unfold process_image_try.
  destruct (Image_open data) as [img|]; [|discriminate]. simpl bind.
  destruct (np_array (_preprocess_image img)) as [arr|]; [|discriminate].
  simpl bind.
  destruct (ocr_ocr ocr arr) as [out|]; [|discriminate]. simpl bind.
  pose proof (parse_result_trimmed out) as Htr.
  pose proof (parse_result_lengths out) as Hlen.
  destruct (parse_result out) as [text_parts confidences].
  destruct (average_percent confidences) as [a [Ha Hm]].
  rewrite Ha. simpl. intro H. injection H as <-.
  exists text_parts, confidences. rewrite Hm. now repeat split.
Qed.

Lemma handler_image_try_ok (ocr : Engine) i file r :
  handler_image_try ocr i file = Ok r ->
  exists text_parts confidences,
    List.length text_parts = List.length confidences
    /\ Forall trimmed text_parts
    /\ r = {| filename := name_or_placeholder file i;
              text := join [SPACE] text_parts;
              confidence := mean_percent confidences;
              error := None;
              character_count := List.length (join [SPACE] text_parts);
              lines_detected := List.length text_parts |}.
Proof.
  unfold handler_image_try.
  destruct (Image_open (upload_stream file)) as [img|]; [|discriminate].
  simpl bind.
  destruct (handler_preprocess img) as [img'|]; [|discriminate]. simpl bind.
  destruct (np_array img') as [arr|]; [|discriminate]. simpl bind.
  destruct (ocr_ocr ocr arr) as [out|]; [|discriminate]. simpl bind.
  pose proof (parse_result_trimmed out) as Htr.
  pose proof (parse_result_lengths out) as Hlen.
  destruct (parse_result out) as [text_parts confidences].
  simpl in Htr, Hlen.
  destruct (average_percent confidences) as [a [Ha Hm]].
  rewrite Ha. simpl. rewrite (strip_join _ Htr). intro H. injection H as <-.
  exists text_parts, confidences. rewrite Hm. now repeat split.
Qed.

(** X6.  Every record of [OCRHandler._process_image], whatever the image
    and whatever raised: it carries the file name it was given, its
    [character_count] is the length of its text, the text has no whitespace
    at either end, the text is empty exactly when no line was detected, a
    record without lines has confidence 0, and a record with an error is
    the error record. *)
Theorem process_image_record (ocr : Engine) data name index :
  let r := _process_image ocr data name index in
  filename r = name
  /\ character_count r = List.length (text r)
  /\ strip (text r) = text r
  /\ (text r = [] <-> lines_detected r = 0%nat)
  /\ (lines_detected r = 0%nat -> confidence r = PyInt 0)
  /\ (forall msg, error r = Some msg -> r = error_record name msg).
Proof.
  unfold _process_image.
  destruct (process_image_try ocr data name) as [r|msg] eqn:E.
  - destruct (process_image_try_ok ocr data name r E)
      as [parts [confs [Hlen [Htr ->]]]].
    cbn [filename character_count text lines_detected confidence error].
    repeat split; try discriminate.
    + apply normalized_strip, clean_text_normalized.
    + intro H. apply clean_text_nil in H.
      destruct Htr as [|w ws Hw _]; [reflexivity|].
      now rewrite (join_trimmed_not_blank w ws Hw) in H.
    + intro H. destruct parts; [reflexivity | discriminate].
    + intro H. destruct parts; [|discriminate].
      destruct confs; [reflexivity | discriminate].
  - cbn. repeat split; try reflexivity. intros m H. now injection H as <-.
Qed.

Lemma name_or_placeholder_not_empty (file : upload) (i : nat) :
  name_or_placeholder file i <> EmptyString.
Proof.
  unfold name_or_placeholder.
  destruct (upload_filename file) eqn:E; simpl; discriminate.
Qed.

(** X7.  Every record of the per-image loop of [handler]: its file name is
    the uploaded name, or [image_] followed by the one-based position when
    the upload has none, and is never empty; its [character_count] is the
    length of its text, the text has no whitespace at either end and is
    empty exactly when no line was detected, a record without lines has
    confidence 0, and a record with an error is the error record. *)
Theorem handler_image_record (ocr : Engine) i file :
  let r := handler_image ocr i file in
  filename r = name_or_placeholder file i
  /\ filename r <> EmptyString
  /\ character_count r = List.length (text r)
  /\ strip (text r) = text r
  /\ (text r = [] <-> lines_detected r = 0%nat)
  /\ (lines_detected r = 0%nat -> confidence r = PyInt 0)
  /\ (forall msg,
        error r = Some msg ->
        r = error_record (name_or_placeholder file i) msg).
Proof.
  unfold handler_image.
  destruct (handler_image_try ocr i file) as [r|msg] eqn:E.
  - destruct (handler_image_try_ok ocr i file r E)
      as [parts [confs [Hlen [Htr ->]]]].
    cbn [filename character_count text lines_detected confidence error].
    split; [reflexivity|]. split; [apply name_or_placeholder_not_empty|].
    repeat split; try discriminate.
    + now apply strip_join.
    + intro H. destruct Htr as [|w ws [Hne _] _]; [reflexivity|].
      now elim (join_nonempty [SPACE] w ws Hne).
    + intro H. destruct parts; [reflexivity | discriminate].
    + intro H. destruct parts; [|discriminate].
      destruct confs; [reflexivity | discriminate].
  - cbn [filename character_count text lines_detected confidence error
         error_record].
    split; [reflexivity|]. split; [apply name_or_placeholder_not_empty|].
    repeat split; try reflexivity. intros m H. now injection H as <-.
Qed.

End Records.

(** * Further properties of the aggregation *)

Lemma combine_drop (rs1 rs2 : list ImageResult) (r : ImageResult) :
  strip (text r) = [] -> combine (rs1 ++ r :: rs2) = combine (rs1 ++ rs2).
Proof.
  intro H. unfold combine. rewrite !filter_app. simpl filter.
  now rewrite H.
Qed.

(** X8.  A record whose text is blank, and so every error record, leaves no
    trace in [combined_text], not even a separator; when every text is
    blank the combined text is empty; and the combined text of a single
    record is its text. *)
Theorem combine_skips_blank :
  (forall rs1 rs2 r,
      strip (text r) = [] ->
      combine (rs1 ++ r :: rs2) = combine (rs1 ++ rs2))
  /\ (forall rs1 rs2 name msg,
      combine (rs1 ++ error_record name msg :: rs2) = combine (rs1 ++ rs2))
  /\ (forall rs,
      Forall (fun r => strip (text r) = []) rs -> combine rs = [])
  /\ (forall r, strip (text r) <> [] -> combine [r] = text r).
Proof.
  split; [exact combine_drop|]. split; [|split].
  - intros rs1 rs2 name msg. now apply combine_drop.
  - intros rs H. unfold combine.
    induction H as [|r rs' Hr _ IH]; [reflexivity|].
    simpl filter. now rewrite Hr.
  - intros r H. unfold combine. simpl filter.
    destruct (strip (text r)); [now elim H | reflexivity].
Qed.

Lemma combine_skips_blank_witness :
  combine [ error_record "a.png" "cannot identify image file";
            {| filename := "b.png"; text := py "hello"; confidence := PyInt 0;
               error := None; character_count := 5; lines_detected := 1 |} ]
  = py "hello".
Proof.
  refine (eq_trans
            (proj1 combine_skips_blank [] _
               (error_record "a.png" "cannot identify image file") eq_refl)
            _).
  apply (proj2 (proj2 (proj2 combine_skips_blank))). discriminate.
Defined.

(** * Further properties of the two request handlers *)

Section Batches.

Context {L : Libs}.

Lemma process_image_filename (ocr : Engine) data name index :
  filename (_process_image ocr data name index) = name.
Proof.
  unfold _process_image.
  destruct (process_image_try ocr data name) as [r|msg] eqn:E;
    [|reflexivity].
  destruct (process_image_try_ok ocr data name r E) as [p [c [_ [_ ->]]]].
  reflexivity.
Qed.

Lemma handler_image_filename (ocr : Engine) i file :
  filename (handler_image ocr i file) = name_or_placeholder file i.
Proof.
  unfold handler_image.
  destruct (handler_image_try ocr i file) as [r|msg] eqn:E; [|reflexivity].
  destruct (handler_image_try_ok ocr i file r E) as [p [c [_ [_ ->]]]].
  reflexivity.
Qed.

Ltac settle :=
  intros;
  repeat match goal with
         | H : _ /\ _ |- _ => destruct H
         | H : exists _, _ |- _ => destruct H
         end;
  try congruence; try discriminate; try tauto; eauto.

(** X11.  Whatever the request, the response of [handler] carries the CORS
    header and one of four statuses: 405 exactly for a method other than
    OPTIONS and POST, 500 exactly for a POST when the construction of the
    engine raises, 400 exactly for a POST without files once the engine is
    built, and 200 otherwise.  No failure of an image leads to a 500. *)
Theorem handler_statuses (request : vercel_request) :
  let response := handler request in
  In ("Access-Control-Allow-Origin", "*")%string (headers response)
  /\ (statusCode response = 405%Z <->
      method request <> "OPTIONS"%string /\ method request <> "POST"%string)
  /\ (statusCode response = 500%Z <->
      method request = "POST"%string /\ exists msg, PaddleOCR = Raise msg)
  /\ (statusCode response = 400%Z <->
      method request = "POST"%string
      /\ (exists ocr, PaddleOCR = Ok ocr) /\ files request = [])
  /\ (statusCode response = 200%Z
      \/ statusCode response = 400%Z
      \/ statusCode response = 405%Z
      \/ statusCode response = 500%Z).
Proof.
  unfold handler, handler_try.
  destruct (String.eqb_spec (method request) "OPTIONS") as [Ho|Ho].
  { rewrite Ho. cbn. split; [now left|]. repeat split; settle. }
  destruct (String.eqb_spec (method request) "POST") as [Hp|Hp]; cbn [negb].
  2:{ cbn. split; [now left|]. repeat split; settle. }
  destruct PaddleOCR as [ocr|msg]; cbn [bind].
  2:{ cbn. split; [now left|]. repeat split; settle. }
  destruct (files request) as [|f fs]; cbn [is_nil].
  - cbn. split; [now left|]. repeat split; settle.
  - cbv zeta. rewrite truediv_mean by discriminate. cbn.
    split; [now left|]. repeat split; settle.
Qed.

(** X12.  A POST with at least one file, once the engine is built, always
    gets status 200 and a BatchResult from [handler], whatever happens to
    the images: one record per file, in order, and [image_count] is the
    number of files. *)
Theorem handler_batch_shape (request : vercel_request) (ocr : Engine) :
  method request = "POST"%string ->
  PaddleOCR = Ok ocr ->
  files request <> [] ->
  exists b,
    statusCode (handler request) = 200%Z
    /\ body (handler request) = BatchBody b
    /\ success b = true
    /\ images b = handler_loop ocr 0 (files request)
    /\ (forall k file,
          nth_error (files request) k = Some file ->
          option_map filename (nth_error (images b) k)
          = Some (name_or_placeholder file k))
    /\ image_count b = List.length (files request)
    /\ combined_text b = combine (images b).
Proof.
  intros Hm Hocr Hf. unfold handler, handler_try.
  rewrite Hm, Hocr. cbn [String.eqb Ascii.eqb Bool.eqb negb bind].
  assert (Hnil : is_nil (files request) = false)
    by (destruct (files request); [now elim Hf | reflexivity]).
  assert (Hres : handler_loop ocr 0 (files request) <> []).
  { intro H. apply (f_equal (@List.length _)) in H.
    rewrite handler_loop_length in H.
    destruct (files request); [now elim Hf | discriminate]. }
  rewrite Hnil. cbv zeta.
  destruct (handler_loop ocr 0 (files request)) as [|r rs] eqn:E;
    [now elim Hres|].
  cbn [is_nil]. rewrite truediv_mean by discriminate. rewrite <- E.
  eexists. cbn [statusCode body success images image_count combined_text].
  split; [reflexivity|]. split; [reflexivity|]. split; [reflexivity|].
  split; [reflexivity|]. split; [|split; [|reflexivity]].
  - intros k file Hk. cbn [images].
    rewrite (handler_loop_nth ocr (files request) 0 k), Hk.
    cbn [option_map Nat.add].
    now rewrite handler_image_filename.
  - apply handler_loop_length.
Qed.

(** X13.  The CORS preflight: for every OPTIONS request [handler] answers
    with status 200, an empty body and the three headers that
    [OCRHandler.do_OPTIONS] sends with its own status 200, and it does so
    without building the engine. *)
Theorem preflight_agrees (request : vercel_request) :
  method request = "OPTIONS"%string ->
  statusCode (handler request) = 200%Z
  /\ body (handler request) = EmptyBody
  /\ headers (handler request) = sent_headers do_OPTIONS
  /\ client_status do_OPTIONS = Some 200%Z
  /\ written do_OPTIONS = [].
Proof.
  intro H. unfold handler, handler_try. rewrite H. now repeat split.
Qed.

End Batches.

Lemma handler_batch_shape_witness :
  exists b,
    body (@handler Sample.libs
            {| method := "POST";
               files := [ {| upload_filename := ""; upload_stream := [3%N] |};
                          {| upload_filename := "b.png";
                             upload_stream := [] |} ] |})
    = BatchBody b
    /\ map filename (images b) = ["image_1"; "b.png"]%string
    /\ image_count b = 2%nat.
Proof.
  destruct (@handler_batch_shape Sample.libs
              {| method := "POST";
                 files := [ {| upload_filename := "";
                               upload_stream := [3%N] |};
                            {| upload_filename := "b.png";
                               upload_stream := [] |} ] |}
              tt eq_refl eq_refl)
    as [b [_ [Hb [_ [Hi [_ [Hc _]]]]]]]; [discriminate|].
  exists b. split; [exact Hb|]. split; [|exact Hc].
  rewrite Hi. reflexivity.
Defined.

Lemma preflight_agrees_witness :
  headers (@handler Sample.libs {| method := "OPTIONS"; files := [] |})
  = [ ("Access-Control-Allow-Origin", "*");
      ("Access-Control-Allow-Methods", "POST, OPTIONS");
      ("Access-Control-Allow-Headers", "Content-Type") ]%string.
Proof.
  exact (proj1 (proj2 (proj2
    (@preflight_agrees Sample.libs {| method := "OPTIONS"; files := [] |}
       eq_refl)))).
Defined.

(** * Further properties of the size cap *)

Lemma caps_from_spec (count : nat) :
  forall m k,
    caps_from m count = true ->
    (m <= k < m + Z.of_nat count)%Z -> caps k = true.
Proof.
  induction count as [|n IH]; intros m k H Hk; [lia|].
  cbn [caps_from] in H. apply andb_prop in H. destruct H as [Hm Hrest].
  destruct (Z.eq_dec k m) as [->|Hne]; [exact Hm|].
  apply (IH (m + 1)%Z k Hrest). lia.
Qed.

Lemma caps_all : caps_from 2049 (Z.to_nat 14336) = true.
Proof. vm_compute. reflexivity. Qed.

Lemma scaled_longer (m : Z) :
  (2048 < m <= 16384)%Z ->
  scaled m m = Ok 2048%Z \/ scaled m m = Ok 2047%Z.
Proof.
  intro Hm.
  assert (H : caps m = true).
  { apply (caps_from_spec (Z.to_nat 14336) 2049 m caps_all). lia. }
  unfold caps in H.
  destruct (scaled m m) as [v|msg]; [|discriminate].
  apply orb_prop in H. destruct H as [H|H]; apply Z.eqb_eq in H; subst v;
    [now left | now right].
Qed.

Section Cap.

Context {L : Libs}.

(** X14.  The resize is attempted exactly when the longer side exceeds
    2048: an image of 2048 pixels or less on its longer side is left as it
    is.  For a longer side up to 16384 the new longer side is 2048 or, by
    float rounding, 2047; it never exceeds the cap. *)
Theorem resize_cap (image : Image) (w h : Z) :
  size image = (w, h) ->
  (0 < w)%Z -> (0 < h)%Z ->
  ((Z.max w h <= 2048)%Z -> resize_step image = Ok image)
  /\ ((2048 < Z.max w h <= 16384)%Z ->
      forall w' h',
        new_size (w, h) = Ok (w', h') ->
        ((h <= w)%Z -> w' = 2048%Z \/ w' = 2047%Z)
        /\ ((w <= h)%Z -> h' = 2048%Z \/ h' = 2047%Z)).
Proof.
  intros Hsize Hw Hh. split.
  - intro Hle. unfold resize_step. rewrite Hsize. simpl fst. simpl snd.
    replace (max_size <? Z.max w h)%Z with false; [reflexivity|].
    symmetry. apply Z.ltb_ge. unfold max_size. lia.
  - intros Hm w' h'. rewrite new_size_scaled by (unfold max_size; lia).
    intro H. split; intro Hle.
    + replace (Z.max w h) with w in * by lia.
      destruct (scaled_longer w Hm) as [E|E]; rewrite E in H;
        simpl bind in H; (destruct (scaled h w); simpl in H; [|discriminate]);
        injection H as <- _; [now left | now right].
    + replace (Z.max w h) with h in * by lia.
      destruct (scaled w h); simpl bind in H; [|discriminate].
      destruct (scaled_longer h Hm) as [E|E]; rewrite E in H;
        simpl in H; injection H as _ <-; [now left | now right].
Qed.

End Cap.

Lemma resize_cap_witness :
  new_size (3136, 1000)%Z = Ok (2047, 653)%Z
  /\ (2047%Z = 2048%Z \/ 2047%Z = 2047%Z).
Proof.
  split; [vm_compute; reflexivity|].
  refine (proj1 (proj2
    (@resize_cap Sample.libs (Sample.rgb (3136, 1000)%Z [] []) 3136 1000
       eq_refl eq_refl eq_refl) _ 2047%Z 653%Z _) _).
  - simpl. lia.
  - vm_compute. reflexivity.
  - lia.
Defined.

(** * The form of [do_POST] *)

Lemma sample_cgi : CgiSpec Sample.libs.
Proof.
  split; intros names; cbn.
  - apply NoDup_rev, NoDup_nodup.
  - intro k. rewrite <- in_rev. apply nodup_In.
Qed.

Lemma sample_pil : PilSpec Sample.libs.
Proof.
  split; cbn.
  - intros img sz img'. unfold Sample.apply.
    destruct ((fst sz <=? 0)%Z || (snd sz <=? 0)%Z); [discriminate|].
    destruct (Sample.raises "resize" img); [discriminate|].
    intro H. injection H as <-. reflexivity.
  - intros img w h Hwh. unfold Sample.apply. cbn [fst snd].
    replace ((w <=? 0)%Z || (h <=? 0)%Z) with true; [now eexists|].
    symmetry. apply orb_true_iff.
    destruct Hwh; [left | right]; now apply Z.leb_le.
  - intros img factor img'. unfold Sample.apply.
    destruct ((fst (Sample.s_size img) <=? 0)%Z
              || (snd (Sample.s_size img) <=? 0)%Z); [discriminate|].
    destruct (Sample.raises "contrast" img); [discriminate|].
    intro H. injection H as <-. reflexivity.
  - intros img factor img'. unfold Sample.apply.
    destruct ((fst (Sample.s_size img) <=? 0)%Z
              || (snd (Sample.s_size img) <=? 0)%Z); [discriminate|].
    destruct (Sample.raises "sharpness" img); [discriminate|].
    intro H. injection H as <-. reflexivity.
Qed.

Lemma getitem_In (parts : list field) (key : option string) (f : field) :
  In f (getitem parts key) <-> In f parts /\ field_name f = key.
Proof.
  unfold getitem. rewrite filter_In.
  destruct (key_eq_dec (field_name f) key); split; intros [H1 H2];
    (split; [assumption|]); congruence.
Qed.

Lemma key_fields_In (parts : list field) (key : option string) (f : field) :
  In f (key_fields parts key) ->
  In f parts /\ field_name f = key /\ is_image_field f = true
  /\ getitem parts key = [f].
Proof.
  unfold key_fields. destruct key as [name|]; [|intros []].
  destruct (String.prefix "image" name) eqn:Ep; [|intros []].
  destruct (getitem parts (Some name)) as [|g [|g' rest]] eqn:Eg;
    try (intros []).
  destruct (string_is_empty (field_filename g)) eqn:Ee; cbn [negb];
    [intros []|].
  intros [<-|[]].
  assert (Hin : In g (getitem parts (Some name))) by (rewrite Eg; now left).
  apply getitem_In in Hin. destruct Hin as [Hin Hname].
  repeat split; try assumption.
  unfold is_image_field. now rewrite Hname, Ep, Ee.
Qed.

Lemma no_image_field_selected (parts : list field)
    (keys : list (option string)) :
  filter is_image_field parts = [] -> flat_map (key_fields parts) keys = [].
Proof.
  intro H. destruct (flat_map (key_fields parts) keys) as [|f l] eqn:E;
    [reflexivity|].
  assert (Hin : In f (flat_map (key_fields parts) keys))
    by (rewrite E; now left).
  apply in_flat_map in Hin. destruct Hin as [k [_ Hf]].
  apply key_fields_In in Hf. destruct Hf as [Hp [_ [Hi _]]].
  assert (Hfil : In f (filter is_image_field parts))
    by (apply filter_In; now split).
  rewrite H in Hfil. destruct Hfil.
Qed.

Section Form.

Context {L : Libs}.

(** When no key raises, the loop returns one record per part it selects. *)
Lemma process_keys_ok (ocr : Engine) (parts : list field)
    (keys : list (option string)) :
  forall n,
    existsb (key_raises parts) keys = false ->
    process_keys ocr parts keys n =
    Ok (map (fun f => _process_image ocr (field_data f) (field_filename f) 0)
            (flat_map (key_fields parts) keys)).
Proof.
  induction keys as [|key rest IH]; intros n H; [reflexivity|].
  cbn [existsb] in H. apply orb_false_iff in H. destruct H as [Hk Hrest].
  destruct key as [name|]; [|discriminate].
  cbn [process_keys flat_map key_fields]. cbn [key_raises] in Hk.
  destruct (String.prefix "image" name); [|now apply IH].
  cbn [andb] in Hk. apply negb_false_iff, Nat.eqb_eq in Hk.
  destruct (getitem parts (Some name)) as [|f [|g l]]; try discriminate.
  destruct (negb (string_is_empty (field_filename f))).
  - rewrite (IH _ Hrest). reflexivity.
  - now apply IH.
Qed.

(** When a key raises, the loop raises, whatever the images. *)
Lemma process_keys_raise (ocr : Engine) (parts : list field)
    (keys : list (option string)) :
  forall n,
    existsb (key_raises parts) keys = true ->
    exists msg, process_keys ocr parts keys n = Raise msg.
Proof.
  induction keys as [|key rest IH]; intros n H; [discriminate|].
  destruct key as [name|]; [|now eexists].
  cbn [existsb key_raises] in H. cbn [process_keys].
  destruct (String.prefix "image" name).
  - destruct (getitem parts (Some name)) as [|f [|g l]];
      [now eexists | | now eexists].
    cbn in H.
    destruct (negb (string_is_empty (field_filename f))).
    + destruct (IH (S n) H) as [msg ->]. now eexists.
    + now apply IH.
  - cbn in H. now apply IH.
Qed.

(** The five ways [do_POST] can end. *)
Lemma do_POST_cases (ocr : Engine) (request : post_request) :
  ((content_type request = None
    \/ exists ct, content_type request = Some ct
                  /\ contains "multipart/form-data" ct = false)
   /\ do_POST ocr request
      = started ++ _send_error 400 "Content-Type must be multipart/form-data")
  \/ (exists ct msg,
        content_type request = Some ct
        /\ contains "multipart/form-data" ct = true
        /\ form request = Raise msg
        /\ do_POST ocr request
           = started
             ++ _send_error 500 ("OCR processing failed: " ++ msg)%string)
  \/ (exists ct parts msg,
        content_type request = Some ct
        /\ contains "multipart/form-data" ct = true
        /\ form request = Ok parts
        /\ existsb (key_raises parts) (list_set (map field_name parts))
           = true
        /\ do_POST ocr request
           = started
             ++ _send_error 500 ("OCR processing failed: " ++ msg)%string)
  \/ (exists ct parts,
        content_type request = Some ct
        /\ contains "multipart/form-data" ct = true
        /\ form request = Ok parts
        /\ existsb (key_raises parts) (list_set (map field_name parts))
           = false
        /\ flat_map (key_fields parts) (list_set (map field_name parts)) = []
        /\ do_POST ocr request
           = started ++ _send_error 400 "No valid images found in request")
  \/ (exists ct parts results,
        content_type request = Some ct
        /\ contains "multipart/form-data" ct = true
        /\ form request = Ok parts
        /\ existsb (key_raises parts) (list_set (map field_name parts))
           = false
        /\ results
           = map (fun f =>
                    _process_image ocr (field_data f) (field_filename f) 0)
                 (flat_map (key_fields parts)
                    (list_set (map field_name parts)))
        /\ results <> []
        /\ do_POST ocr request
           = started ++
             [ wfile_write (BatchBody
                 {| success := true;
                    images := results;
                    combined_text := combine results;
                    total_confidence :=
                      arithmetic_mean (map confidence results);
                    image_count := List.length results |}) ]).
Proof.
  unfold do_POST, do_POST_try. fold started.
  destruct (content_type request) as [ct|]; [|left; split; [now left|]];
    [|reflexivity].
  destruct (contains "multipart/form-data" ct) eqn:Ect; cbn [negb].
  2:{ left. split; [right; now exists ct | reflexivity]. }
  right. destruct (form request) as [parts|msg].
  2:{ left. exists ct, msg. now repeat split. }
  right.
  destruct (existsb (key_raises parts) (list_set (map field_name parts)))
    eqn:Er.
  { left.
    destruct (process_keys_raise ocr parts _ 0 Er) as [msg Hmsg].
    rewrite Hmsg. exists ct, parts, msg.
    split; [reflexivity|]. split; [exact Ect|]. split; [reflexivity|].
    split; [exact Er | reflexivity]. }
  right. rewrite (process_keys_ok ocr parts _ 0 Er).
  destruct (flat_map (key_fields parts) (list_set (map field_name parts)))
    as [|f fs] eqn:Es.
  - left. exists ct, parts.
    split; [reflexivity|]. split; [exact Ect|]. split; [reflexivity|].
    split; [exact Er|]. split; [exact Es | reflexivity].
  - right.
    remember (map (fun f =>
                     _process_image ocr (field_data f) (field_filename f) 0)
                  (f :: fs)) as results eqn:Eres.
    destruct results as [|r rs]; [discriminate|].
    cbn [is_nil]. rewrite truediv_mean by discriminate.
    exists ct, parts, (r :: rs).
    split; [reflexivity|]. split; [exact Ect|]. split; [reflexivity|].
    split; [exact Er|]. split; [now rewrite Es|].
    split; [discriminate | reflexivity].
Qed.

(** C8, on the code.  When no part of the form is an image field,
    [do_POST] builds no BatchResult, and the status a client reads is 200:
    unless a key of the form makes the loop raise, [do_POST] emits its 400
    error, but only after the status line 200 and the end of the headers.
    [handler] answers an empty file list with status 400. *)
Theorem no_images_response (ocr : Engine) (ct : string)
    (fields : list field) :
  contains "multipart/form-data" ct = true ->
  filter is_image_field fields = [] ->
  let trace := do_POST ocr {| content_type := Some ct; form := Ok fields |} in
  client_status trace = Some 200%Z
  /\ (forall b, ~ In (wfile_write (BatchBody b)) trace)
  /\ (existsb (key_raises fields) (list_set (map field_name fields)) = false ->
      trace = [ send_response 200;
                send_header "Access-Control-Allow-Origin" "*";
                send_header "Content-Type" "application/json";
                end_headers ]
              ++ _send_error 400 "No valid images found in request"
      /\ written trace = [ErrorBody "No valid images found in request"])
  /\ (forall request,
        method request = "POST"%string -> files request = [] ->
        PaddleOCR = Ok ocr ->
        handler request = {| statusCode := 400; headers := cors;
                             body := ErrorBody "No images provided" |}).
Proof.
  intros Hct Hnone trace.
  assert (E : existsb (key_raises fields) (list_set (map field_name fields))
              = false ->
              trace = started
                      ++ _send_error 400 "No valid images found in request").
  { intro Hkeys. subst trace. unfold do_POST, do_POST_try.
    cbn [content_type form]. rewrite Hct. cbn [negb].
    rewrite (process_keys_ok ocr fields _ 0 Hkeys).
    rewrite (no_image_field_selected fields _ Hnone). reflexivity. }
  assert (E' : existsb (key_raises fields) (list_set (map field_name fields))
               = true ->
               exists msg,
                 trace = started
                         ++ _send_error 500
                              ("OCR processing failed: " ++ msg)%string).
  { intro Hkeys. subst trace. unfold do_POST, do_POST_try.
    cbn [content_type form]. rewrite Hct. cbn [negb].
    destruct (process_keys_raise ocr fields _ 0 Hkeys) as [msg ->].
    now exists msg. }
  split; [|split; [|split]].
  - destruct (existsb (key_raises fields) (list_set (map field_name fields))).
    + destruct (E' eq_refl) as [msg ->]. reflexivity.
    + rewrite (E eq_refl). reflexivity.
  - intro b.
    destruct (existsb (key_raises fields) (list_set (map field_name fields))).
    + destruct (E' eq_refl) as [msg ->]. simpl. intuition discriminate.
    + rewrite (E eq_refl). simpl. intuition discriminate.
  - intro Hkeys. rewrite (E Hkeys). split; reflexivity.
  - intros request Hm Hf Hocr. unfold handler, handler_try.
    rewrite Hm, Hocr, Hf. reflexivity.
Qed.

End Form.

Lemma no_images_response_witness :
  client_status
    (@do_POST Sample.libs tt
       {| content_type := Some "multipart/form-data; boundary=x"%string;
          form := Ok [ {| field_name := Some "file"%string;
                          field_filename := "a.png";
                          field_data := [1%N] |} ] |})
  = Some 200%Z.
Proof.
  exact (proj1
    (@no_images_response Sample.libs tt "multipart/form-data; boundary=x"
       [ {| field_name := Some "file"%string; field_filename := "a.png";
            field_data := [1%N] |} ] eq_refl eq_refl)).
Defined.

(** ** Which parts the loop selects *)

Lemma existsb_false_In {A} (p : A -> bool) (l : list A) (x : A) :
  existsb p l = false -> In x l -> p x = false.
Proof.
  intros H Hin. destruct (p x) eqn:E; [|reflexivity].
  assert (Ht : existsb p l = true) by (apply existsb_exists; now exists x).
  congruence.
Qed.

Lemma getitem_cons_length (a : field) (t : list field)
    (key : option string) :
  List.length (getitem (a :: t) key)
  = ((if key_eq_dec (field_name a) key then 1 else 0)
     + List.length (getitem t key))%nat.
Proof.
  unfold getitem. cbn [filter].
  now destruct (key_eq_dec (field_name a) key).
Qed.

Lemma getitem_In_length (t : list field) (f : field) :
  In f t -> (1 <= List.length (getitem t (field_name f)))%nat.
Proof.
  intro H. assert (Hin : In f (getitem t (field_name f)))
    by (apply getitem_In; now split).
  destruct (getitem t (field_name f)); [destruct Hin | simpl; lia].
Qed.

Lemma image_fields_NoDup (parts : list field) :
  (forall f, In f parts -> is_image_field f = true ->
             List.length (getitem parts (field_name f)) = 1%nat) ->
  NoDup (filter is_image_field parts).
Proof.
  induction parts as [|a t IH]; intro H; [constructor|].
  assert (Ht : NoDup (filter is_image_field t)).
  { apply IH. intros f Hf Hi.
    pose proof (H f (or_intror Hf) Hi) as Hlen.
    rewrite getitem_cons_length in Hlen.
    pose proof (getitem_In_length t f Hf).
    destruct (key_eq_dec (field_name a) (field_name f)); lia. }
  cbn [filter]. destruct (is_image_field a) eqn:Ea; [|exact Ht].
  constructor; [|exact Ht]. intro Hin. apply filter_In in Hin.
  destruct Hin as [Hin _].
  pose proof (H a (or_introl eq_refl) Ea) as Hlen.
  rewrite getitem_cons_length in Hlen.
  pose proof (getitem_In_length t a Hin).
  destruct (key_eq_dec (field_name a) (field_name a)); [lia | congruence].
Qed.

Lemma selected_NoDup (parts : list field) (keys : list (option string)) :
  NoDup keys -> NoDup (flat_map (key_fields parts) keys).
Proof.
  induction 1 as [|k rest Hk Hrest IH]; [constructor|].
  cbn [flat_map]. apply NoDup_app; [| exact IH |].
  - unfold key_fields. destruct k as [name|]; [|constructor].
    destruct (String.prefix "image" name); [|constructor].
    destruct (getitem parts (Some name)) as [|f [|g l]]; try constructor.
    destruct (negb (string_is_empty (field_filename f)));
      repeat constructor. intros [].
  - intros f Hf Hin. apply key_fields_In in Hf. destruct Hf as [_ [Hn _]].
    apply in_flat_map in Hin. destruct Hin as [k' [Hk' Hf']].
    apply key_fields_In in Hf'. destruct Hf' as [_ [Hn' _]].
    apply Hk. congruence.
Qed.

Section Selection.

Context {L : Libs}.

Lemma single_part (parts : list field) (f : field) :
  existsb (key_raises parts) (list_set (map field_name parts)) = false ->
  CgiSpec L ->
  In f parts -> is_image_field f = true ->
  getitem parts (field_name f) = [f].
Proof.
  intros Hr C Hin Hi. unfold is_image_field in Hi.
  destruct (field_name f) as [name|] eqn:En; [|discriminate].
  apply andb_prop in Hi. destruct Hi as [Hp _].
  assert (Hk : In (Some name) (list_set (map field_name parts))).
  { apply list_set_In. rewrite <- En. now apply in_map. }
  pose proof (existsb_false_In _ _ _ Hr Hk) as Hkr.
  cbn [key_raises] in Hkr. rewrite Hp in Hkr. cbn [andb] in Hkr.
  apply negb_false_iff, Nat.eqb_eq in Hkr.
  assert (Hg : In f (getitem parts (Some name)))
    by (apply getitem_In; now split).
  destruct (getitem parts (Some name)) as [|g [|g' l]]; try discriminate.
  destruct Hg as [->|[]]. reflexivity.
Qed.

(** When no key raises, the parts the loop selects are the image fields of
    the form, each once. *)
Lemma selected_image_fields (parts : list field) :
  existsb (key_raises parts) (list_set (map field_name parts)) = false ->
  CgiSpec L ->
  (forall f,
      In f (flat_map (key_fields parts) (list_set (map field_name parts)))
      <-> In f (filter is_image_field parts))
  /\ List.length
       (flat_map (key_fields parts) (list_set (map field_name parts)))
     = List.length (filter is_image_field parts).
Proof.
  intros Hr C.
  assert (Hiff : forall f,
      In f (flat_map (key_fields parts) (list_set (map field_name parts)))
      <-> In f (filter is_image_field parts)).
  { intro f. rewrite filter_In. split.
    - intro H. apply in_flat_map in H. destruct H as [k [_ Hf]].
      apply key_fields_In in Hf. tauto.
    - intros [Hin Hi]. apply in_flat_map. exists (field_name f). split.
      + apply list_set_In. now apply in_map.
      + pose proof (single_part parts f Hr C Hin Hi) as Hg.
        unfold is_image_field in Hi. unfold key_fields.
        destruct (field_name f) as [name|]; [|discriminate].
        apply andb_prop in Hi. destruct Hi as [Hp He].
        rewrite Hp, Hg, He. now left. }
  split; [exact Hiff|].
  apply Permutation.Permutation_length.
  apply Permutation.NoDup_Permutation; [| | exact Hiff].
  - apply selected_NoDup, list_set_NoDup.
  - apply image_fields_NoDup. intros f Hin Hi.
    now rewrite (single_part parts f Hr C Hin Hi).
Qed.

End Selection.

(** ** Per-image failure, and what ends the batch *)

Section Failure.

Context {L : Libs}.


End Failure.



(** ** The batch mean *)

Lemma py_sum_floats (xs : list num) :
  forall acc,
    zero_or_float acc -> Forall zero_or_float xs ->
    to_float (fold_left add xs acc)
    = fold_left PrimFloat.add (map to_float xs) (to_float acc).
Proof.
  induction xs as [|x xs' IH]; intros acc Hacc Hxs; [reflexivity|].
  inversion Hxs as [|? ? Hx Hxs']; subst. cbn [fold_left map].
  destruct acc as [a|a], x as [z|y]; cbn in Hacc, Hx; subst.
  - change (add (PyInt 0) (PyInt 0)) with (PyInt 0).
    now rewrite (IH (PyInt 0) eq_refl Hxs').
  - rewrite IH; [reflexivity | exact I | exact Hxs'].
  - rewrite IH; [reflexivity | exact I | exact Hxs'].
  - rewrite IH; [reflexivity | exact I | exact Hxs'].
Qed.

Lemma arithmetic_mean_binary64 (rs : list ImageResult) :
  Forall (fun r => zero_or_float (confidence r)) rs ->
  arithmetic_mean (map confidence rs)
  = PyFloat (binary64_mean (map (fun r => to_float (confidence r)) rs)).
Proof.
  intro H. unfold arithmetic_mean, binary64_mean, py_sum, len.
  rewrite (py_sum_floats (map confidence rs) (PyInt 0) eq_refl).
  - rewrite map_map, !length_map. reflexivity.
  - apply Forall_map. exact H.
Qed.

Lemma mean_percent_shape (confidences : list num) :
  zero_or_float (mean_percent confidences).
Proof. destruct confidences; cbn; [reflexivity | exact I]. Qed.

Section Mean.

Context {L : Libs}.

Lemma process_image_confidence (ocr : Engine) data name index :
  zero_or_float (confidence (_process_image ocr data name index)).
Proof.
  unfold _process_image.
  destruct (process_image_try ocr data name) as [r|msg] eqn:E;
    [|reflexivity].
  destruct (process_image_try_ok ocr data name r E) as [p [c [_ [_ ->]]]].
  apply mean_percent_shape.
Qed.

Lemma handler_image_confidence (ocr : Engine) i file :
  zero_or_float (confidence (handler_image ocr i file)).
Proof.
  unfold handler_image.
  destruct (handler_image_try ocr i file) as [r|msg] eqn:E; [|reflexivity].
  destruct (handler_image_try_ok ocr i file r E) as [p [c [_ [_ ->]]]].
  apply mean_percent_shape.
Qed.

Lemma handler_loop_confidences (ocr : Engine) (fs : list upload) :
  forall i,
    Forall (fun r => zero_or_float (confidence r)) (handler_loop ocr i fs).
Proof.
  induction fs as [|f rest IH]; intro i; constructor;
    [apply handler_image_confidence | apply IH].
Qed.

Lemma do_POST_batch (ocr : Engine) request b :
  In (wfile_write (BatchBody b)) (do_POST ocr request) ->
  images b <> []
  /\ Forall (fun r => zero_or_float (confidence r)) (images b)
  /\ total_confidence b = arithmetic_mean (map confidence (images b)).
Proof.
  destruct (do_POST_cases ocr request)
    as [[_ ->]|[[ct [msg [_ [_ [_ ->]]]]]
       |[[ct [ps [msg [_ [_ [_ [_ ->]]]]]]]
        |[[ct [ps [_ [_ [_ [_ [_ ->]]]]]]]
         |[ct [ps [rs [_ [_ [_ [_ [Hrs [Hne ->]]]]]]]]]]]]];
    try (simpl; intuition discriminate).
  simpl. intros [H|[H|[H|[H|[H|[]]]]]]; try discriminate.
  injection H as <-. cbn [images total_confidence].
  split; [exact Hne|]. split; [|reflexivity].
  rewrite Hrs. apply Forall_map, Forall_forall. intros f _.
  apply process_image_confidence.
Qed.

Lemma handler_batch (request : vercel_request) b :
  body (handler request) = BatchBody b ->
  exists ocr,
    PaddleOCR = Ok ocr
    /\ images b = handler_loop ocr 0 (files request)
    /\ images b <> []
    /\ total_confidence b = arithmetic_mean (map confidence (images b)).
Proof.
  unfold handler, handler_try.
  destruct (String.eqb (method request) "OPTIONS"); [discriminate|].
  destruct (negb (String.eqb (method request) "POST")); [discriminate|].
  destruct PaddleOCR as [ocr|msg]; [|discriminate]. simpl bind.
  destruct (files request) as [|f fs]; [discriminate|].
  cbv zeta. simpl is_nil. cbv iota.
  rewrite truediv_mean by discriminate.
  simpl. intro H. injection H as <-. exists ocr. simpl.
  repeat split. discriminate.
Qed.

(** C2 (as amended).  Whenever either entry point answers with a
    BatchResult, its list of records is not empty and [total_confidence] is
    the binary64 mean of the confidences of all of them: their float sum from
    the left, starting at 0.0, divided by their number.  A failed record is
    in the list with the value 0.0.  The result is the exact mean rounded,
    as the examples show: 85.00000000000001 and 95.0 give 90.0. *)
Theorem batch_total_confidence :
  (forall (ocr : Engine) request b,
      In (wfile_write (BatchBody b)) (do_POST ocr request) ->
      images b <> []
      /\ total_confidence b
         = PyFloat (binary64_mean
                      (map (fun r => to_float (confidence r)) (images b))))
  /\ (forall request b,
      body (handler request) = BatchBody b ->
      images b <> []
      /\ total_confidence b
         = PyFloat (binary64_mean
                      (map (fun r => to_float (confidence r)) (images b))))
  /\ (forall name msg,
      to_float (confidence (error_record name msg)) = 0%float)
  /\ binary64_mean [85.00000000000001; 95]%float = 90%float
  /\ binary64_mean [95; 0]%float = 47.5%float
  /\ binary64_mean [90; 0; 30]%float = 40%float
  /\ binary64_mean [0; 0]%float = 0%float.
Proof.
  split; [|split; [|repeat split; reflexivity]].
  - intros ocr request b H.
    destruct (do_POST_batch ocr request b H) as [Hne [Hz Ht]].
    split; [exact Hne|]. rewrite Ht. now apply arithmetic_mean_binary64.
  - intros request b H.
    destruct (handler_batch request b H) as [ocr [_ [Hi [Hne Ht]]]].
    split; [exact Hne|]. rewrite Ht. apply arithmetic_mean_binary64.
    rewrite Hi. apply handler_loop_confidences.
Qed.

End Mean.


Lemma batch_total_confidence_witness :
  (exists b,
      In (wfile_write (BatchBody b)) (@do_POST Sample.libs tt two_fields)
      /\ total_confidence b = PyFloat 47.5)
  /\ (exists b,
      body (@handler Sample.libs two_uploads) = BatchBody b
      /\ total_confidence b = PyFloat 90).
Proof.
  split; eexists.
  - split.
    + vm_compute. right. right. right. right. left. reflexivity.
    + match goal with
      | |- total_confidence ?b = _ =>
          rewrite (proj2 (proj1 (@batch_total_confidence Sample.libs)
                     tt two_fields b
                     (or_intror (or_intror (or_intror (or_intror
                        (or_introl eq_refl)))))))
      end.
      reflexivity.
  - split.
    + vm_compute. reflexivity.
    + match goal with
      | |- total_confidence ?b = _ =>
          rewrite (proj2 (proj1 (proj2 (@batch_total_confidence Sample.libs))
                     two_uploads b eq_refl))
      end.
      reflexivity.
Defined.

(** C2 as stated fails: the two confidences 85.00000000000001 and 95.0 have
    the total 90.0, which is not their mean in exact arithmetic. *)
Lemma batch_mean_not_exact :
  exists b,
    body (@handler Sample.libs two_uploads) = BatchBody b
    /\ map confidence (images b) = [PyFloat 85.00000000000001; PyFloat 95]
    /\ total_confidence b = PyFloat 90
    /\ ~ QArith_base.Qeq (exact_num (total_confidence b))
           (exact_mean (map confidence (images b))).
Proof.
  eexists. split; [vm_compute; reflexivity|].
  split; [reflexivity|]. split; [reflexivity|].
  intro H. apply QArith_base.Qeq_bool_iff in H.
  vm_compute in H. discriminate.
Qed.

(** ** The resize of an oversized image *)

Section Resizing.

Context {L : Libs}.

(** C9, on the code.  For an image whose longer side exceeds 2048 the
    resize is called with the size whose two dimensions are the truncated
    float products of the old dimensions and [2048 / longer].  When the
    longer side is 4096 that size is half of each dimension, rounded down:
    its longer side is 2048 and the other is within one pixel of the exact
    half, and when the resize returns, the image it returns, and the image
    [_preprocess_image] returns for an RGB input, have that size.  When the
    other side is 1 the size asked has a zero side: the resize raises, so
    [_preprocess_image] returns the image unresized and the preprocessing of
    [handler] raises. *)
Theorem resize_bound (image : Image) (w h : Z) :
  size image = (w, h) ->
  (0 < w)%Z -> (0 < h)%Z ->
  (max_size < Z.max w h)%Z ->
  resize_step image =
    (sz <- (w' <- scaled w (Z.max w h) ;;
            h' <- scaled h (Z.max w h) ;; Ok (w', h')) ;;
     resize image sz)
  /\ ((Z.max w h = 4096)%Z ->
      resize_step image = resize image (w / 2, h / 2)%Z
      /\ (Z.max (w / 2) (h / 2) = 2048)%Z
      /\ (0 <= w - 2 * (w / 2) <= 1)%Z
      /\ (0 <= h - 2 * (h / 2) <= 1)%Z
      /\ (PilSpec L ->
          forall image',
            resize_step image = Ok image' ->
            size image' = (w / 2, h / 2)%Z
            /\ (mode image = "RGB"%string ->
                size (_preprocess_image image) = (w / 2, h / 2)%Z))
      /\ (PilSpec L ->
          (Z.min w h = 1)%Z ->
          exists msg,
            resize_step image = Raise msg
            /\ (mode image = "RGB"%string ->
                _preprocess_image image = image
                /\ handler_preprocess image = Raise msg))).
Proof.
  intros Hsize Hw Hh Hmax.
  assert (E : resize_step image =
    (sz <- (w' <- scaled w (Z.max w h) ;;
            h' <- scaled h (Z.max w h) ;; Ok (w', h')) ;;
     resize image sz)).
  { unfold resize_step. rewrite Hsize. simpl fst. simpl snd.
    apply Z.ltb_lt in Hmax. rewrite Hmax.
    apply Z.ltb_lt in Hmax. now rewrite new_size_scaled. }
  split; [exact E|]. intro H4096.
  assert (E2 : resize_step image = resize image (w / 2, h / 2)%Z).
  { rewrite E, H4096. rewrite !scaled_4096 by lia. reflexivity. }
  split; [exact E2|].
  pose proof (Z.div_mod w 2). pose proof (Z.mod_pos_bound w 2).
  pose proof (Z.div_mod h 2). pose proof (Z.mod_pos_bound h 2).
  split; [lia|]. split; [lia|]. split; [lia|]. split.
  - intros P image' Hres.
    assert (Hs : size image' = (w / 2, h / 2)%Z)
      by (rewrite E2 in Hres; exact (resize_size _ _ _ Hres)).
    split; [exact Hs|]. intro Hmode.
    assert (Hc : convert_step image = Ok image).
    { unfold convert_step. rewrite Hmode. reflexivity. }
    unfold _preprocess_image, seq_stmt, assign. rewrite Hc, Hres.
    destruct (contrast_step image') as [i3|m3] eqn:E3; [|exact Hs].
    apply contrast_size in E3.
    destruct (sharpness_step i3) as [i4|m4] eqn:E4; cbn [fst].
    + apply sharpness_size in E4. congruence.
    + congruence.
  - intros P Hmin.
    destruct (resize_positive image (w / 2) (h / 2)) as [msg Hmsg]; [lia|].
    exists msg. rewrite E2. split; [exact Hmsg|]. intro Hmode.
    assert (Hc : convert_step image = Ok image).
    { unfold convert_step. rewrite Hmode. reflexivity. }
    rewrite <- E2 in Hmsg.
    unfold _preprocess_image, handler_preprocess, seq_stmt, assign.
    rewrite Hc, Hmsg. split; reflexivity.
Qed.

End Resizing.

Lemma resize_bound_witness :
  @size Sample.libs (@_preprocess_image Sample.libs Sample.big)
  = (2048, 1500)%Z
  /\ @size Sample.libs Sample.sliver = (4096, 1)%Z
  /\ exists msg,
       @resize_step Sample.libs Sample.sliver = Raise msg
       /\ @_preprocess_image Sample.libs Sample.sliver = Sample.sliver
       /\ @handler_preprocess Sample.libs Sample.sliver = Raise msg.
Proof.
  split.
  { refine (proj2 (proj1 (proj2 (proj2 (proj2 (proj2
              (proj2 (@resize_bound Sample.libs Sample.big 4096 3000
                        eq_refl eq_refl eq_refl eq_refl) eq_refl)))))
              sample_pil (Sample.after Sample.big ["resize"%string]) _)
            eq_refl).
    vm_compute. reflexivity. }
  split; [reflexivity|].
  destruct (proj2 (proj2 (proj2 (proj2 (proj2
              (proj2 (@resize_bound Sample.libs Sample.sliver 4096 1
                        eq_refl eq_refl eq_refl eq_refl) eq_refl)))))
              sample_pil eq_refl) as [msg [Hr Hp]].
  exists msg. split; [exact Hr|]. exact (Hp eq_refl).
Defined.

(** ** How [do_POST] answers *)

Section Answers.

Context {L : Libs}.

(** X9.  Whatever the request, [do_POST] puts the status line 200 on the
    wire first, sends the CORS header, and writes exactly one body.  It goes
    on to send a 500 exactly when the content type is multipart and either
    building the form raises or a key of the form makes the loop raise (a
    part without a name, an image name shared by several parts); it sends a
    400 exactly when the content type is missing or not multipart, or the
    loop ends without a record.  No failure of an image, and no division,
    leads to a 500. *)
Theorem do_POST_responses (ocr : Engine) (request : post_request) :
  let trace := do_POST ocr request in
  client_status trace = Some 200%Z
  /\ (exists body, written trace = [body])
  /\ In ("Access-Control-Allow-Origin", "*")%string (sent_headers trace)
  /\ (In (send_response 500) trace <->
      exists ct,
        content_type request = Some ct
        /\ contains "multipart/form-data" ct = true
        /\ ((exists msg, form request = Raise msg)
            \/ exists parts,
                 form request = Ok parts
                 /\ existsb (key_raises parts)
                      (list_set (map field_name parts)) = true))
  /\ (In (send_response 400) trace <->
      (content_type request = None
       \/ (exists ct, content_type request = Some ct
                      /\ contains "multipart/form-data" ct = false)
       \/ (exists ct parts,
             content_type request = Some ct
             /\ contains "multipart/form-data" ct = true
             /\ form request = Ok parts
             /\ existsb (key_raises parts)
                  (list_set (map field_name parts)) = false
             /\ flat_map (key_fields parts)
                  (list_set (map field_name parts)) = []))).
Proof.
  cbv zeta.
  destruct (do_POST_cases ocr request)
    as [[Hc ->]|[[ct [msg [Hct [Hm [Hf ->]]]]]
       |[[ct [ps [msg [Hct [Hm [Hf [Hr ->]]]]]]]
        |[[ct [ps [Hct [Hm [Hf [Hr [Hs ->]]]]]]]
         |[ct [ps [rs [Hct [Hm [Hf [Hr [Hrs [Hne ->]]]]]]]]]]]]].
  - split; [reflexivity|]. split; [eexists; reflexivity|].
    split; [now left|]. split.
    + split; [simpl; intuition discriminate|].
      intros [ct [Hct [Hm _]]].
      destruct Hc as [Hc|[ct' [Hc Hm']]]; congruence.
    + split; [intros _|intros _; simpl; tauto].
      destruct Hc as [Hc|Hc]; [now left | right; now left].
  - split; [reflexivity|]. split; [eexists; reflexivity|].
    split; [now left|]. split.
    + split; [intros _|intros _; simpl; tauto].
      exists ct. split; [exact Hct|]. split; [exact Hm|]. left.
      now exists msg.
    + split; [simpl; intuition discriminate|].
      intros [Hc|[[ct' [Hc Hm']]|[ct' [ps [Hc [_ [Hf' _]]]]]]]; congruence.
  - split; [reflexivity|]. split; [eexists; reflexivity|].
    split; [now left|]. split.
    + split; [intros _|intros _; simpl; tauto].
      exists ct. split; [exact Hct|]. split; [exact Hm|]. right.
      now exists ps.
    + split; [simpl; intuition discriminate|].
      intros [Hc|[[ct' [Hc Hm']]|[ct' [ps' [Hc [_ [Hf' [Hr' _]]]]]]]];
        congruence.
  - split; [reflexivity|]. split; [eexists; reflexivity|].
    split; [now left|]. split.
    + split; [simpl; intuition discriminate|].
      intros [ct' [_ [_ [[msg Hf']|[ps' [Hf' Hr']]]]]]; congruence.
    + split; [intros _|intros _; simpl; tauto].
      right. right. now exists ct, ps.
  - split; [reflexivity|]. split; [eexists; reflexivity|].
    split; [now left|]. split.
    + split; [simpl; intuition discriminate|].
      intros [ct' [_ [_ [[msg Hf']|[ps' [Hf' Hr']]]]]]; congruence.
    + split; [simpl; intuition discriminate|].
      intros [Hc|[[ct' [Hc Hm']]|[ct' [ps' [Hc [_ [Hf' [_ Hs']]]]]]]];
        try congruence.
      assert (ps' = ps) by congruence. subst ps'.
      rewrite Hs' in Hrs. subst rs. now elim Hne.
Qed.

(** X10.  A multipart request whose form has no raising key and at least
    one image field gets a BatchResult from [do_POST], whatever happens to
    the images: it is the only body written, [success] is true, the records
    are those of the selected parts in the order of the keys of the form,
    each under its part's file name, which is never empty, and
    [image_count] is the number of records, which is the number of image
    fields of the form. *)
Theorem do_POST_batch_shape (ocr : Engine) (request : post_request)
    ct parts :
  CgiSpec L ->
  content_type request = Some ct ->
  contains "multipart/form-data" ct = true ->
  form request = Ok parts ->
  existsb (key_raises parts) (list_set (map field_name parts)) = false ->
  filter is_image_field parts <> [] ->
  exists b,
    written (do_POST ocr request) = [BatchBody b]
    /\ success b = true
    /\ map filename (images b)
       = map field_filename
           (flat_map (key_fields parts) (list_set (map field_name parts)))
    /\ Forall (fun r => filename r <> EmptyString) (images b)
    /\ image_count b = List.length (images b)
    /\ image_count b = List.length (filter is_image_field parts)
    /\ combined_text b = combine (images b).
Proof.
  intros C Hct Hm Hf Hr Hn.
  destruct (selected_image_fields parts Hr C) as [Hiff Hlen].
  destruct (do_POST_cases ocr request)
    as [[Hc _]|[[ct' [msg [_ [_ [Hf' _]]]]]
       |[[ct' [ps [msg [_ [_ [Hf' [Hr' _]]]]]]]
        |[[ct' [ps [_ [_ [Hf' [_ [Hs _]]]]]]]
         |[ct' [ps [rs [_ [_ [Hf' [_ [Hrs [_ ->]]]]]]]]]]]]].
  - destruct Hc as [Hc|[ct' [Hc Hm']]]; congruence.
  - congruence.
  - assert (ps = parts) by congruence. subst ps. congruence.
  - assert (ps = parts) by congruence. subst ps.
    rewrite Hs in Hlen. destruct (filter is_image_field parts);
      [now elim Hn | discriminate].
  - assert (ps = parts) by congruence. subst ps.
    eexists. split; [reflexivity|].
    cbn [success images image_count combined_text].
    split; [reflexivity|].
    assert (Hnames : map filename rs
              = map field_filename
                  (flat_map (key_fields parts)
                     (list_set (map field_name parts)))).
    { rewrite Hrs, map_map. apply map_ext. intro f.
      apply process_image_filename. }
    split; [exact Hnames|]. split.
    + apply Forall_forall. intros r Hr0.
      apply (in_map filename) in Hr0. rewrite Hnames in Hr0.
      apply in_map_iff in Hr0. destruct Hr0 as [f [<- Hin]].
      apply Hiff, filter_In in Hin. destruct Hin as [_ Hi].
      unfold is_image_field in Hi. apply andb_prop in Hi.
      destruct Hi as [_ Hi]. destruct (field_filename f); discriminate.
    + split; [reflexivity|]. split; [|reflexivity].
      rewrite <- Hlen, Hrs. apply length_map.
Qed.

End Answers.

Lemma do_POST_batch_shape_witness :
  exists b,
    written (@do_POST Sample.libs tt two_fields) = [BatchBody b]
    /\ image_count b = 2%nat.
Proof.
  destruct (@do_POST_batch_shape Sample.libs tt two_fields
              "multipart/form-data; boundary=x" _ sample_cgi
              eq_refl eq_refl eq_refl eq_refl)
    as [b [Hw [_ [_ [_ [_ [Hc _]]]]]]]; [discriminate|].
  exists b. split; [exact Hw | exact Hc].
Defined.

(** Two parts that share the name [image]: the request parses, the loop
    raises on the list, and the 500 error follows the status line 200. *)
Lemma repeated_name_500 :
  @do_POST Sample.libs tt
    {| content_type := Some "multipart/form-data; boundary=x"%string;
       form := Ok [ {| field_name := Some "image"%string;
                       field_filename := "a.png"; field_data := [3%N] |};
                    {| field_name := Some "image"%string;
                       field_filename := "b.png"; field_data := [1%N] |} ] |}
  = started
    ++ _send_error 500
         "OCR processing failed: 'list' object has no attribute 'filename'".
Proof. reflexivity. Qed.
